(** * WorkoutLogger: a shallow embedding of the Lightning web component

    The component [workoutLogger.js] is a class whose tracked fields are
    mutated by asynchronous handlers.  Every handler is a straight-line
    chain of [await]s wrapped in [try]/[catch]/[finally].  It is embedded
    here as a state-passing computation over

    - the record [State] of the tracked fields,
    - an environment [Env] that answers the remote (Apex) calls and the
      [confirm] prompt and supplies the date formatter and the form
      elements of the template, and
    - a [Trace] of the observable effects, where every remote call is
      logged together with the component state that is visible while the
      call is pending.

    Handlers are run one at a time, each to completion: the overlap of two
    handlers suspended at an [await] is not part of this model.

    JavaScript numbers are modelled by [Z] (record fields holding integer
    values), [undefined] and [null] by [None]. *)

From Stdlib Require Import ZArith String Ascii List Bool Lia.
From Stdlib Require OrderedTypeEx.
From stdpp Require Import base gmap sets list strings sorting.
Import ListNotations.

Local Open Scope string_scope.
Local Open Scope Z_scope.
Local Open Scope list_scope.

(** ** Records exchanged with the Apex controller *)

Module Data.

(** A record returned by [getTodaySession] / [createWorkoutSession]. *)
Record Session := mkSession {
  session_Id : string;
  Session_Date__c : string
}.

(** A record returned by [getExercisesByMuscleGroup]. *)
Record Exercise := mkExercise {
  exercise_Id : string;
  exercise_Name : string
}.

(** The value of the property [Exercise__c] of a set record.  The [Set]
    of line 222 holds these values as they are, and [undefined] (also an
    absent property) and [null] are two different values of a [Set]. *)
Inductive ExerciseRef :=
| Undefined
| Null
| Identifier (id : string).

#[global] Instance ExerciseRef_eq_dec : EqDecision ExerciseRef.
Proof. solve_decision. Defined.

#[global] Instance ExerciseRef_countable : Countable ExerciseRef.
Proof.
  refine (inj_countable'
            (fun r => match r with
                      | Undefined => None
                      | Null => Some None
                      | Identifier id => Some (Some id)
                      end)
            (fun o => match o with
                      | None => Undefined
                      | Some None => Null
                      | Some (Some id) => Identifier id
                      end) _).
  intros []; reflexivity.
Defined.

(** A record returned by [getWorkoutSets]; only the properties the
    component reads are kept.  For the properties that are only read
    through [||], a value that is absent, [undefined] or [null] is
    [None]. *)
Record WorkoutSet := mkSet {
  Exercise__c : ExerciseRef;
  exerciseName : option string;
  Reps : option Z;
  Weight_Kg : option Z;
  SetCount : option Z
}.

(** An entry of a combobox option list, [{ label, value }]. *)
Record ComboOption := mkOption {
  opt_label : string;
  opt_value : string
}.

(** The argument object of [createWorkoutSet]. *)
Record SetRequest := mkSetRequest {
  req_sessionId : option string;
  req_exerciseId : option string;
  req_reps : option string;
  req_weight : option string;
  req_unit : string;
  req_rpe : option string;
  req_notes : option string
}.

(** An element matched by [this.template.querySelectorAll]. *)
Inductive Tag := LightningInput | LightningCombobox.

Record InputEl := mkInput {
  in_tag : Tag;
  in_required : bool;
  in_value : option string
}.

End Data.
Export Data.

(** ** The tracked fields of the component *)

Record State := mkState {
  sessionId : option string;
  sessionExists : bool;
  sessionDate : string;
  muscleGroupOptions : list ComboOption;
  selectedMuscleGroup : option string;
  exerciseOptions : list ComboOption;
  selectedExerciseId : option string;
  reps : option string;
  weight : option string;
  unit : string;
  rpe : option string;
  notes : option string;
  loggedSets : list WorkoutSet;
  allLoggedSets : list WorkoutSet;
  isLoading : bool;
  tableVisible : bool;
  totalSets : Z;
  uniqueExercises : Z;
  totalReps : Z;
  maxWeight : Z;
  sortedBy : string;
  sortedDirection : string
}.

(** The field initialisers of the class body. *)
Definition initial_state : State :=
  {| sessionId := None; sessionExists := false; sessionDate := "";
     muscleGroupOptions := []; selectedMuscleGroup := None;
     exerciseOptions := []; selectedExerciseId := None;
     reps := None; weight := None; unit := "kg"; rpe := None; notes := None;
     loggedSets := []; allLoggedSets := []; isLoading := false;
     tableVisible := true;
     totalSets := 0; uniqueExercises := 0; totalReps := 0; maxWeight := 0;
     sortedBy := "SetCount"; sortedDirection := "asc" |}.

(** Field assignments [this.f = v]. *)
Module Assign.
Definition set_sessionId v (s : State) : State :=
  mkState v (sessionExists s) (sessionDate s) (muscleGroupOptions s)
    (selectedMuscleGroup s) (exerciseOptions s) (selectedExerciseId s)
    (reps s) (weight s) (unit s) (rpe s) (notes s) (loggedSets s)
    (allLoggedSets s) (isLoading s) (tableVisible s) (totalSets s)
    (uniqueExercises s) (totalReps s) (maxWeight s) (sortedBy s)
    (sortedDirection s).
Definition set_sessionExists v (s : State) : State :=
  mkState (sessionId s) v (sessionDate s) (muscleGroupOptions s)
    (selectedMuscleGroup s) (exerciseOptions s) (selectedExerciseId s)
    (reps s) (weight s) (unit s) (rpe s) (notes s) (loggedSets s)
    (allLoggedSets s) (isLoading s) (tableVisible s) (totalSets s)
    (uniqueExercises s) (totalReps s) (maxWeight s) (sortedBy s)
    (sortedDirection s).
Definition set_sessionDate v (s : State) : State :=
  mkState (sessionId s) (sessionExists s) v (muscleGroupOptions s)
    (selectedMuscleGroup s) (exerciseOptions s) (selectedExerciseId s)
    (reps s) (weight s) (unit s) (rpe s) (notes s) (loggedSets s)
    (allLoggedSets s) (isLoading s) (tableVisible s) (totalSets s)
    (uniqueExercises s) (totalReps s) (maxWeight s) (sortedBy s)
    (sortedDirection s).
Definition set_muscleGroupOptions v (s : State) : State :=
  mkState (sessionId s) (sessionExists s) (sessionDate s) v
    (selectedMuscleGroup s) (exerciseOptions s) (selectedExerciseId s)
    (reps s) (weight s) (unit s) (rpe s) (notes s) (loggedSets s)
    (allLoggedSets s) (isLoading s) (tableVisible s) (totalSets s)
    (uniqueExercises s) (totalReps s) (maxWeight s) (sortedBy s)
    (sortedDirection s).
Definition set_selectedMuscleGroup v (s : State) : State :=
  mkState (sessionId s) (sessionExists s) (sessionDate s)
    (muscleGroupOptions s) v (exerciseOptions s) (selectedExerciseId s)
    (reps s) (weight s) (unit s) (rpe s) (notes s) (loggedSets s)
    (allLoggedSets s) (isLoading s) (tableVisible s) (totalSets s)
    (uniqueExercises s) (totalReps s) (maxWeight s) (sortedBy s)
    (sortedDirection s).
Definition set_exerciseOptions v (s : State) : State :=
  mkState (sessionId s) (sessionExists s) (sessionDate s)
    (muscleGroupOptions s) (selectedMuscleGroup s) v (selectedExerciseId s)
    (reps s) (weight s) (unit s) (rpe s) (notes s) (loggedSets s)
    (allLoggedSets s) (isLoading s) (tableVisible s) (totalSets s)
    (uniqueExercises s) (totalReps s) (maxWeight s) (sortedBy s)
    (sortedDirection s).
Definition set_selectedExerciseId v (s : State) : State :=
  mkState (sessionId s) (sessionExists s) (sessionDate s)
    (muscleGroupOptions s) (selectedMuscleGroup s) (exerciseOptions s) v
    (reps s) (weight s) (unit s) (rpe s) (notes s) (loggedSets s)
    (allLoggedSets s) (isLoading s) (tableVisible s) (totalSets s)
    (uniqueExercises s) (totalReps s) (maxWeight s) (sortedBy s)
    (sortedDirection s).
Definition set_reps v (s : State) : State :=
  mkState (sessionId s) (sessionExists s) (sessionDate s)
    (muscleGroupOptions s) (selectedMuscleGroup s) (exerciseOptions s)
    (selectedExerciseId s) v (weight s) (unit s) (rpe s) (notes s)
    (loggedSets s) (allLoggedSets s) (isLoading s) (tableVisible s)
    (totalSets s) (uniqueExercises s) (totalReps s) (maxWeight s)
    (sortedBy s) (sortedDirection s).
Definition set_weight v (s : State) : State :=
  mkState (sessionId s) (sessionExists s) (sessionDate s)
    (muscleGroupOptions s) (selectedMuscleGroup s) (exerciseOptions s)
    (selectedExerciseId s) (reps s) v (unit s) (rpe s) (notes s)
    (loggedSets s) (allLoggedSets s) (isLoading s) (tableVisible s)
    (totalSets s) (uniqueExercises s) (totalReps s) (maxWeight s)
    (sortedBy s) (sortedDirection s).
Definition set_unit v (s : State) : State :=
  mkState (sessionId s) (sessionExists s) (sessionDate s)
    (muscleGroupOptions s) (selectedMuscleGroup s) (exerciseOptions s)
    (selectedExerciseId s) (reps s) (weight s) v (rpe s) (notes s)
    (loggedSets s) (allLoggedSets s) (isLoading s) (tableVisible s)
    (totalSets s) (uniqueExercises s) (totalReps s) (maxWeight s)
    (sortedBy s) (sortedDirection s).
Definition set_rpe v (s : State) : State :=
  mkState (sessionId s) (sessionExists s) (sessionDate s)
    (muscleGroupOptions s) (selectedMuscleGroup s) (exerciseOptions s)
    (selectedExerciseId s) (reps s) (weight s) (unit s) v (notes s)
    (loggedSets s) (allLoggedSets s) (isLoading s) (tableVisible s)
    (totalSets s) (uniqueExercises s) (totalReps s) (maxWeight s)
    (sortedBy s) (sortedDirection s).
Definition set_notes v (s : State) : State :=
  mkState (sessionId s) (sessionExists s) (sessionDate s)
    (muscleGroupOptions s) (selectedMuscleGroup s) (exerciseOptions s)
    (selectedExerciseId s) (reps s) (weight s) (unit s) (rpe s) v
    (loggedSets s) (allLoggedSets s) (isLoading s) (tableVisible s)
    (totalSets s) (uniqueExercises s) (totalReps s) (maxWeight s)
    (sortedBy s) (sortedDirection s).
Definition set_loggedSets v (s : State) : State :=
  mkState (sessionId s) (sessionExists s) (sessionDate s)
    (muscleGroupOptions s) (selectedMuscleGroup s) (exerciseOptions s)
    (selectedExerciseId s) (reps s) (weight s) (unit s) (rpe s) (notes s)
    v (allLoggedSets s) (isLoading s) (tableVisible s)
    (totalSets s) (uniqueExercises s) (totalReps s) (maxWeight s)
    (sortedBy s) (sortedDirection s).
Definition set_allLoggedSets v (s : State) : State :=
  mkState (sessionId s) (sessionExists s) (sessionDate s)
    (muscleGroupOptions s) (selectedMuscleGroup s) (exerciseOptions s)
    (selectedExerciseId s) (reps s) (weight s) (unit s) (rpe s) (notes s)
    (loggedSets s) v (isLoading s) (tableVisible s)
    (totalSets s) (uniqueExercises s) (totalReps s) (maxWeight s)
    (sortedBy s) (sortedDirection s).
Definition set_isLoading v (s : State) : State :=
  mkState (sessionId s) (sessionExists s) (sessionDate s)
    (muscleGroupOptions s) (selectedMuscleGroup s) (exerciseOptions s)
    (selectedExerciseId s) (reps s) (weight s) (unit s) (rpe s) (notes s)
    (loggedSets s) (allLoggedSets s) v (tableVisible s)
    (totalSets s) (uniqueExercises s) (totalReps s) (maxWeight s)
    (sortedBy s) (sortedDirection s).
Definition set_tableVisible v (s : State) : State :=
  mkState (sessionId s) (sessionExists s) (sessionDate s)
    (muscleGroupOptions s) (selectedMuscleGroup s) (exerciseOptions s)
    (selectedExerciseId s) (reps s) (weight s) (unit s) (rpe s) (notes s)
    (loggedSets s) (allLoggedSets s) (isLoading s) v
    (totalSets s) (uniqueExercises s) (totalReps s) (maxWeight s)
    (sortedBy s) (sortedDirection s).
Definition set_statistics (t u r m : Z) (s : State) : State :=
  mkState (sessionId s) (sessionExists s) (sessionDate s)
    (muscleGroupOptions s) (selectedMuscleGroup s) (exerciseOptions s)
    (selectedExerciseId s) (reps s) (weight s) (unit s) (rpe s) (notes s)
    (loggedSets s) (allLoggedSets s) (isLoading s) (tableVisible s)
    t u r m (sortedBy s) (sortedDirection s).
Definition set_sortedBy v (s : State) : State :=
  mkState (sessionId s) (sessionExists s) (sessionDate s)
    (muscleGroupOptions s) (selectedMuscleGroup s) (exerciseOptions s)
    (selectedExerciseId s) (reps s) (weight s) (unit s) (rpe s) (notes s)
    (loggedSets s) (allLoggedSets s) (isLoading s) (tableVisible s)
    (totalSets s) (uniqueExercises s) (totalReps s) (maxWeight s) v
    (sortedDirection s).
Definition set_sortedDirection v (s : State) : State :=
  mkState (sessionId s) (sessionExists s) (sessionDate s)
    (muscleGroupOptions s) (selectedMuscleGroup s) (exerciseOptions s)
    (selectedExerciseId s) (reps s) (weight s) (unit s) (rpe s) (notes s)
    (loggedSets s) (allLoggedSets s) (isLoading s) (tableVisible s)
    (totalSets s) (uniqueExercises s) (totalReps s) (maxWeight s)
    (sortedBy s) v.
End Assign.
Import Assign.

(** ** JavaScript values read from a set record *)

Module JS.

(** The value of a property access [a[fieldName]]. *)
Inductive JSVal :=
| VUndef
| VNum (n : Z)
| VStr (s : string).

Definition of_num (v : option Z) : JSVal :=
  match v with Some n => VNum n | None => VUndef end.

Definition of_str (v : option string) : JSVal :=
  match v with Some s => VStr s | None => VUndef end.

(** [ToBoolean]: [undefined], [0] and [''] are falsy. *)
Definition truthy (v : JSVal) : bool :=
  match v with
  | VUndef => false
  | VNum n => negb (n =? 0)
  | VStr s => negb (String.eqb s "")
  end.

(** [a || b]. *)
Definition or (a b : JSVal) : JSVal := if truthy a then a else b.

(** [v || 0] on a numeric property. *)
Definition or_zero (v : option Z) : Z :=
  match or (of_num v) (VNum 0) with
  | VNum n => n
  | _ => 0
  end.

Definition is_space (c : ascii) : bool :=
  match nat_of_ascii c with
  | 9%nat | 10%nat | 11%nat | 12%nat | 13%nat | 32%nat => true
  | _ => false
  end.

Fixpoint drop_spaces (s : string) : string :=
  match s with
  | String c r => if is_space c then drop_spaces r else s
  | EmptyString => EmptyString
  end.

Definition digit (c : ascii) : option Z :=
  let n := Z.of_nat (nat_of_ascii c) in
  if (48 <=? n) && (n <=? 57) then Some (n - 48) else None.

(** Reads decimal digits up to the end of the string or up to trailing
    white space. *)
Fixpoint digits (acc : Z) (s : string) : option Z :=
  match s with
  | EmptyString => Some acc
  | String c r =>
      match digit c with
      | Some d => digits (10 * acc + d) r
      | None => if String.eqb (drop_spaces s) "" then Some acc else None
      end
  end.

Definition unsigned (s : string) : option Z :=
  match s with
  | EmptyString => None
  | String c _ => match digit c with Some _ => digits 0 s | None => None end
  end.

(** [StringToNumber] restricted to the integers of this model: white
    space is trimmed, the empty string is [0], a decimal integer literal
    is its value, and everything else is [NaN] ([None]).  The sort never
    reaches the last case on records of type [WorkoutSet]: a column is
    either textual or numeric, so a string only meets another string or
    the empty string. *)
Definition StringToNumber (s : string) : option Z :=
  match drop_spaces s with
  | EmptyString => Some 0
  | String "+" r => unsigned r
  | String "-" r => option_map Z.opp (unsigned r)
  | r => unsigned r
  end.

(** [ToNumber]; [None] is [NaN]. *)
Definition ToNumber (v : JSVal) : option Z :=
  match v with
  | VUndef => None
  | VNum n => Some n
  | VStr s => StringToNumber s
  end.

(** [a > b]: two strings are compared as strings, character by
    character; anything else is compared as numbers, and a comparison with
    [NaN] is false. *)
Definition gt (a b : JSVal) : bool :=
  match a, b with
  | VStr x, VStr y =>
      match String.compare x y with Gt => true | _ => false end
  | _, _ =>
      match ToNumber a, ToNumber b with
      | Some m, Some n => n <? m
      | _, _ => false
      end
  end.

(** A boolean used as a number. *)
Definition num_of_bool (b : bool) : Z := if b then 1 else 0.

(** [Math.max(...args, last)]. *)
Definition Math_max (args : list Z) (last : Z) : Z :=
  fold_right Z.max last args.

(** [Array.prototype.sort(compareFn)].  The language fixes the result
    for a consistent comparator: the stable sorted rearrangement.  The
    model is the stable insertion sort, [x] going in front of the first
    element it does not compare greater than. *)
Fixpoint insert_sorted {A} (compareFn : A -> A -> Z) (x : A) (l : list A)
  : list A :=
  match l with
  | [] => [x]
  | y :: l' =>
      if compareFn x y <=? 0 then x :: l
      else y :: insert_sorted compareFn x l'
  end.

Definition Array_sort {A} (compareFn : A -> A -> Z) (l : list A) : list A :=
  fold_right (insert_sorted compareFn) [] l.

End JS.
Import JS.

(** The exercise property as a value; [VUndef] is a missing value,
    [undefined] or [null], as for the other properties. *)
Definition of_ref (v : ExerciseRef) : JSVal :=
  match v with
  | Identifier id => VStr id
  | Undefined | Null => VUndef
  end.

(** [a[fieldName]] on a set record. *)
Definition get_field (fieldName : string) (a : WorkoutSet) : JSVal :=
  if String.eqb fieldName "Exercise__c" then of_ref (Exercise__c a)
  else if String.eqb fieldName "exerciseName" then of_str (exerciseName a)
  else if String.eqb fieldName "Reps" then of_num (Reps a)
  else if String.eqb fieldName "Weight_Kg" then of_num (Weight_Kg a)
  else if String.eqb fieldName "SetCount" then of_num (SetCount a)
  else VUndef.

(** ** Statistics (lines 218-230) *)

(** The four assignments of [calculateStatistics].  Each right-hand side
    reads [allLoggedSets] only, so the four fields are written at once.
    [uniqueExerciseIds] is the [Set] built from the mapped array. *)
Definition calculateStatistics (s : State) : State :=
  let all := allLoggedSets s in
  let uniqueExerciseIds : gset ExerciseRef :=
    list_to_set (map Exercise__c all) in
  set_statistics
    (Z.of_nat (length all))
    (Z.of_nat (size uniqueExerciseIds))
    (fold_left (fun sum set => sum + or_zero (Reps set)) all 0)
    (Math_max (map (fun set => or_zero (Weight_Kg set)) all) 0)
    s.

(** ** Sorting the display list (lines 348-355) *)

(** The arrow function handed to [sort]. *)
Definition compareSets (fieldName sortDirection : string)
  (a b : WorkoutSet) : Z :=
  let reverse := if String.eqb sortDirection "desc" then -1 else 1 in
  let valueA := or (get_field fieldName a) (VStr "") in
  let valueB := or (get_field fieldName b) (VStr "") in
  reverse * (num_of_bool (gt valueA valueB) - num_of_bool (gt valueB valueA)).

Definition sortData (fieldName sortDirection : string) (s : State) : State :=
  set_loggedSets
    (Array_sort (compareSets fieldName sortDirection) (loggedSets s)) s.

Definition toggleTableVisibility (s : State) : State :=
  set_tableVisible (negb (tableVisible s)) s.

(** ** Effects: remote calls, notifications, and the handler monad *)

(** A promise settles with a value or is rejected with an error. *)
Inductive Result (T : Type) :=
| Resolved (v : T)
| Rejected (error : string).
Arguments Resolved {T} v.
Arguments Rejected {T} error.

(** The imported Apex methods, with their arguments. *)
Inductive Call :=
| getTodaySession
| createWorkoutSession
| getExercisesByMuscleGroup (muscleGroup : string)
| getMuscleGroups
| createWorkoutSet (request : SetRequest)
| getWorkoutSets (sid : option string)
| endWorkoutSession (sid : option string).

(** What each method resolves with.  A resolved record or list is never
    [null], except for [getTodaySession], which resolves with nothing when
    there is no session for today. *)
Definition Resp (c : Call) : Type :=
  match c with
  | getTodaySession => option Session
  | createWorkoutSession => Session
  | getExercisesByMuscleGroup _ => list Exercise
  | getMuscleGroups => list string
  | createWorkoutSet _ => WorkoutSet
  | getWorkoutSets _ => list WorkoutSet
  | endWorkoutSession _ => ()
  end.

(** Observable effects.  [Called pending c]: the remote call [c] was
    issued, and [pending] is the component state while it is in flight. *)
Inductive Event :=
| Called (pending : State) (c : Call)
| Toast (title message variant : string)
| ConsoleError (label error : string)
| Confirm (message : string) (answer : bool)
| ReportValidity (element : nat)
| SetCustomValidity (element : nat) (message : string)
| RefreshApex.

Definition Trace := list Event.

(** The remote calls of a trace, in order. *)
Definition calls (tr : Trace) : list Call :=
  omap (fun ev => match ev with Called _ c => Some c | _ => None end) tr.

(** The collaborators of the component.  [respond] settles a call and sees
    the calls made before it, so a backend with a state of its own is
    covered.  [confirm] is the user's answer to a prompt, [template] the
    list of form elements in document order, and [toLocaleDateString] the
    platform's date formatting inside [formatDate]. *)
Record Env := mkEnv {
  respond : list Call -> forall c : Call, Result (Resp c);
  confirm : string -> bool;
  template : list InputEl;
  toLocaleDateString : string -> string
}.

(** How a block of statements ends. *)
Inductive Outcome (A : Type) :=
| Normal (a : A)
| Thrown (error : string).
Arguments Normal {A} a.
Arguments Thrown {A} error.

Definition M (A : Type) : Type := State -> Trace -> Outcome A * State * Trace.

Module Handler.

Definition ret {A} (a : A) : M A := fun s tr => (Normal a, s, tr).

Definition bind {A B} (m : M A) (k : A -> M B) : M B :=
  fun s tr =>
    match m s tr with
    | (Normal a, s', tr') => k a s' tr'
    | (Thrown e, s', tr') => (Thrown e, s', tr')
    end.

(** Reads [this]. *)
Definition this : M State := fun s tr => (Normal s, s, tr).

(** A field assignment. *)
Definition assign (f : State -> State) : M () :=
  fun s tr => (Normal (), f s, tr).

Definition emit (ev : Event) : M () :=
  fun s tr => (Normal (), s, tr ++ [ev]).

(** [try { body } catch (error) { handler error }]. *)
Definition try_catch (body : M ()) (handler : string -> M ()) : M () :=
  fun s tr =>
    match body s tr with
    | (Normal a, s', tr') => (Normal a, s', tr')
    | (Thrown e, s', tr') => handler e s' tr'
    end.

(** [try { body } finally { cleanup }]: the cleanup runs on both exits
    and the outcome of the body is kept unless the cleanup throws. *)
Definition try_finally (body : M ()) (cleanup : M ()) : M () :=
  fun s tr =>
    match body s tr with
    | (o, s', tr') =>
        match cleanup s' tr' with
        | (Normal _, s'', tr'') => (o, s'', tr'')
        | (Thrown e, s'', tr'') => (Thrown e, s'', tr'')
        end
    end.

Definition try_catch_finally (body : M ()) (handler : string -> M ())
  (cleanup : M ()) : M () :=
  try_finally (try_catch body handler) cleanup.

End Handler.
Import Handler.

Declare Scope handler_scope.
Delimit Scope handler_scope with handler.
Notation "x <- m ;; k" := (bind m (fun x => k))
  (at level 100, m at next level, right associativity) : handler_scope.
Notation "m ;; k" := (bind m (fun _ => k))
  (at level 100, right associativity) : handler_scope.
Local Open Scope handler_scope.

(** [forEach]. *)
Fixpoint for_each {A} (l : list A) (f : A -> M ()) : M () :=
  match l with
  | [] => ret ()
  | x :: l' => f x ;; for_each l' f
  end.

(** Elements with their position in the document. *)
Definition indexed {A} (l : list A) : list (nat * A) :=
  combine (seq 0 (length l)) l.

Definition is_input (e : nat * InputEl) : bool :=
  match in_tag (snd e) with LightningInput => true | LightningCombobox => false end.

(** ** The handlers of the component *)

Section Component.

Variable env : Env.

(** [await c]: the call is issued in the current state, then the
    statements of [pending] run while the request is in flight (they are
    the rest of a caller that did not await), then the promise settles. *)
Definition await_during (pending : M ()) (c : Call) : M (Resp c) :=
  fun s tr =>
    match pending s (tr ++ [Called s c]) with
    | (Normal _, s', tr') =>
        match respond env (calls tr) c with
        | Resolved v => (Normal v, s', tr')
        | Rejected e => (Thrown e, s', tr')
        end
    | (Thrown e, s', tr') => (Thrown e, s', tr')
    end.

Definition await (c : Call) : M (Resp c) := await_during (ret ()) c.

(** The browser's blocking [confirm(message)] prompt. *)
Definition ask_confirm (message : string) : M bool :=
  fun s tr =>
    let answer := confirm env message in
    (Normal answer, s, tr ++ [Confirm message answer]).

(** [await refreshApex(this.allLoggedSets)].  The component has no wired
    property, so the value handed over was never provisioned by a wire
    adapter; the platform then resolves the promise without a request. *)
Definition refreshApex : M () := emit RefreshApex.

(** Lines 154-161. *)
Definition formatDate (dateString : string) : string :=
  toLocaleDateString env dateString.

(** Lines 163-169. *)
Definition showToast (title message variant : string) : M () :=
  emit (Toast title message variant).

Definition console_error (label error : string) : M () :=
  emit (ConsoleError label error).

(** Lines 171-181. *)
Definition loadMuscleGroups : M () :=
  try_catch
    (groups <- await getMuscleGroups ;;
     assign (set_muscleGroupOptions
               (map (fun group => mkOption group group) groups)))
    (fun error => console_error "Error loading muscle groups:" error).

(** Lines 183-201; [value] is [event.detail.value]. *)
Definition handleMuscleGroupChange (value : option string) : M () :=
  assign (set_selectedMuscleGroup value) ;;
  assign (set_selectedExerciseId None) ;;
  assign (set_exerciseOptions []) ;;
  s <- this ;;
  match selectedMuscleGroup s with
  | Some group =>
      if truthy (VStr group) then
        try_catch
          (exercises <- await (getExercisesByMuscleGroup group) ;;
           assign (set_exerciseOptions
                     (map (fun ex => mkOption (exercise_Name ex)
                                       (exercise_Id ex)) exercises)))
          (fun error => console_error "Error loading exercises:" error)
      else ret ()
  | None => ret ()
  end.

(** Lines 203-216.  [pending] is what the caller does while the fetch is
    in flight; a caller that awaits does nothing. *)
Definition loadWorkoutSets_during (pending : M ()) : M () :=
  assign (set_isLoading true) ;;
  try_catch_finally
    (s <- this ;;
     sets <- await_during pending (getWorkoutSets (sessionId s)) ;;
     assign (set_allLoggedSets sets) ;;
     assign (set_loggedSets sets) ;;
     assign calculateStatistics)
    (fun error =>
       showToast "Error" "Failed to load workout sets" "error" ;;
       console_error "Error loading sets:" error)
    (assign (set_isLoading false)).

Definition loadWorkoutSets : M () := loadWorkoutSets_during (ret ()).

(** Lines 135-152. *)
Definition initializeLogger : M () :=
  assign (set_isLoading true) ;;
  try_catch_finally
    (session <- await getTodaySession ;;
     match session with
     | Some session =>
         assign (set_sessionId (Some (session_Id session))) ;;
         assign (set_sessionExists true) ;;
         assign (set_sessionDate (formatDate (Session_Date__c session))) ;;
         loadWorkoutSets
     | None => ret ()
     end ;;
     loadMuscleGroups)
    (fun error =>
       showToast "Error" "Failed to initialize workout logger" "error" ;;
       console_error "Initialization error:" error)
    (assign (set_isLoading false)).

(** Lines 131-133. *)
Definition connectedCallback : M () := initializeLogger.

(** Lines 232-246. *)
Definition handleCreateSession : M () :=
  assign (set_isLoading true) ;;
  try_catch_finally
    (session <- await createWorkoutSession ;;
     assign (set_sessionId (Some (session_Id session))) ;;
     assign (set_sessionExists true) ;;
     assign (set_sessionDate (formatDate (Session_Date__c session))) ;;
     showToast "Success" "New workout session started" "success")
    (fun error =>
       showToast "Error" "Failed to create session" "error" ;;
       console_error "Error creating session:" error)
    (assign (set_isLoading false)).

(** [input.required && !input.value]. *)
Definition missing_required (input : InputEl) : bool :=
  in_required input && negb (truthy (of_str (in_value input))).

(** Lines 248-260: every matched element that is required and empty
    reports its validity, and the form is then invalid. *)
Definition validateForm : M bool :=
  let inputs := indexed (template env) in
  for_each inputs
    (fun input =>
       if missing_required (snd input)
       then emit (ReportValidity (fst input))
       else ret ()) ;;
  ret (forallb (fun input => negb (missing_required (snd input))) inputs).

(** Lines 295-307. *)
Definition handleClearForm : M () :=
  assign (set_reps None) ;;
  assign (set_weight None) ;;
  assign (set_rpe None) ;;
  assign (set_notes None) ;;
  let inputs := filter is_input (indexed (template env)) in
  for_each inputs
    (fun input =>
       emit (SetCustomValidity (fst input) "") ;;
       emit (ReportValidity (fst input))).

(** The object literal of lines 269-277. *)
Definition set_request (s : State) : SetRequest :=
  {| req_sessionId := sessionId s;
     req_exerciseId := selectedExerciseId s;
     req_reps := reps s;
     req_weight := weight s;
     req_unit := unit s;
     req_rpe := rpe s;
     req_notes := notes s |}.

(** Lines 262-293. *)
Definition handleAddSet : M () :=
  valid <- validateForm ;;
  if negb valid then ret ()
  else
    assign (set_isLoading true) ;;
    try_catch_finally
      (s <- this ;;
       await (createWorkoutSet (set_request s)) ;;
       handleClearForm ;;
       refreshApex ;;
       loadWorkoutSets ;;
       showToast "Success" "Workout set added successfully" "success")
      (fun error =>
         showToast "Error" "Failed to add workout set" "error" ;;
         console_error "Error adding set:" error)
      (assign (set_isLoading false)).

Definition end_prompt : string :=
  "Are you sure you want to end this workout session? This action cannot be undone.".

(** Lines 309-331. *)
Definition handleEndSession : M () :=
  confirmed <- ask_confirm end_prompt ;;
  if negb confirmed then ret ()
  else
    assign (set_isLoading true) ;;
    try_catch_finally
      (s <- this ;;
       await (endWorkoutSession (sessionId s)) ;;
       assign (set_sessionId None) ;;
       assign (set_sessionExists false) ;;
       assign (set_sessionDate "") ;;
       assign (set_loggedSets []) ;;
       assign (set_allLoggedSets []) ;;
       showToast "Success" "Workout session ended successfully" "success")
      (fun error =>
         showToast "Error" "Failed to end workout session" "error" ;;
         console_error "Error ending session:" error)
      (assign (set_isLoading false)).

(** Lines 333-336: the load is started but not awaited, so the toast is
    shown while the fetch is in flight. *)
Definition handleRefreshTable : M () :=
  loadWorkoutSets_during
    (showToast "Info" "Refreshing workout data..." "info").

(** Lines 342-346. *)
Definition handleSortData (fieldName sortDirection : string) : M () :=
  assign (set_sortedBy fieldName) ;;
  assign (set_sortedDirection sortDirection) ;;
  s <- this ;;
  assign (sortData (sortedBy s) (sortedDirection s)).

(** Lines 357-360: the assignment goes to the event's target, not to
    the component. *)
Definition handleLoadMore : M () := ret ().

(** The user actions the component reacts to, with the payload of the
    event. *)
Inductive Action :=
| Connected
| MuscleGroupChange (value : option string)
| ExerciseChange (value : option string)
| RepsChange (value : option string)
| WeightChange (value : option string)
| UnitChange (value : string)
| RpeChange (value : option string)
| NotesChange (value : option string)
| CreateSession
| AddSet
| ClearForm
| EndSession
| RefreshTable
| ToggleTable
| SortData (fieldName sortDirection : string)
| LoadMore.

Definition handler (a : Action) : M () :=
  match a with
  | Connected => connectedCallback
  | MuscleGroupChange v => handleMuscleGroupChange v
  | ExerciseChange v => assign (set_selectedExerciseId v)
  | RepsChange v => assign (set_reps v)
  | WeightChange v => assign (set_weight v)
  | UnitChange v => assign (set_unit v)
  | RpeChange v => assign (set_rpe v)
  | NotesChange v => assign (set_notes v)
  | CreateSession => handleCreateSession
  | AddSet => handleAddSet
  | ClearForm => handleClearForm
  | EndSession => handleEndSession
  | RefreshTable => handleRefreshTable
  | ToggleTable => assign toggleTableVisibility
  | SortData f d => handleSortData f d
  | LoadMore => handleLoadMore
  end.

(** Runs a handler from state [s] with an empty trace.  What the backend
    remembers of earlier handlers is part of [env]. *)
Definition run (m : M ()) (s : State) : State * Trace :=
  match m s [] with (_, s', tr) => (s', tr) end.

End Component.

(** ** The statistics as the specification words them *)

Module Spec.

(** A missing or undefined number counts as zero. *)
Definition number (v : option Z) : Z := default 0 v.

(** "sum of rep counts (missing/undefined reps treated as zero)". *)
Definition total_reps (sets : list WorkoutSet) : Z :=
  foldr Z.add 0 (map (fun set => number (Reps set)) sets).

(** "maximum of all set weights (missing/undefined treated as zero), or
    zero if no sets exist". *)
Definition max_weight (sets : list WorkoutSet) : Z :=
  match map (fun set => number (Weight_Kg set)) sets with
  | [] => 0
  | w :: ws => foldr Z.max w ws
  end.

(** The exercise identifier of a set, when it has one. *)
Definition identifier (set : WorkoutSet) : option string :=
  match Exercise__c set with
  | Identifier id => Some id
  | Undefined | Null => None
  end.

(** "count of distinct exercise identifiers among sets". *)
Definition unique_exercises (sets : list WorkoutSet) : Z :=
  Z.of_nat (length (remove_dups (omap identifier sets))).

End Spec.

(** The number of distinct values of the exercise property, as a [Set]
    counts them. *)
Definition distinct_values (sets : list WorkoutSet) : Z :=
  Z.of_nat (length (remove_dups (map Exercise__c sets))).

(** One more value when some set holds [v] as its exercise property. *)
Definition counts_value (v : ExerciseRef) (sets : list WorkoutSet) : Z :=
  if bool_decide (v ∈ map Exercise__c sets) then 1 else 0.

(** A set record that only carries an exercise property. *)
Definition set_with_exercise (v : ExerciseRef) : WorkoutSet :=
  mkSet v None None None None.

(** A set record that only carries reps, or only a weight. *)
Definition set_with_reps (r : option Z) : WorkoutSet :=
  mkSet Undefined None r None None.
Definition set_with_weight (w : option Z) : WorkoutSet :=
  mkSet Undefined None None w None.
Definition set_with_count (n : Z) : WorkoutSet :=
  mkSet Undefined None None None (Some n).

(** The component holding [sets] as its loaded list. *)
Definition loaded (sets : list WorkoutSet) (s : State) : State :=
  set_allLoggedSets sets s.


(** ** Vocabulary for the sort *)

(** [a[fieldName] || '']. *)
Definition coerced (fieldName : string) (a : WorkoutSet) : JSVal :=
  or (get_field fieldName a) (VStr "").

(** [(x > y) - (y > x)]. *)
Definition three_way (x y : JSVal) : Z :=
  num_of_bool (gt x y) - num_of_bool (gt y x).

(** [a] may stand in front of [b] under the comparator. *)
Definition in_order (fieldName sortDirection : string) (a b : WorkoutSet)
  : Prop :=
  compareSets fieldName sortDirection a b <= 0.

(** The display list holding sets numbered [counts]. *)
Definition displaying (counts : list Z) (s : State) : State :=
  set_loggedSets (map set_with_count counts) s.

Definition displayed_counts (s : State) : list (option Z) :=
  map SetCount (loggedSets s).

(** What a coerced cell can be: a number or the empty string in a numeric
    column, a string in a textual one. *)
Inductive numeric_like : JSVal -> Prop :=
| numeric_empty : numeric_like (VStr "")
| numeric_num n : numeric_like (VNum n).

Inductive textual : JSVal -> Prop :=
| textual_str s : textual (VStr s).

(** The number a numeric cell is compared as. *)
Definition num_of (v : JSVal) : Z :=
  match v with VNum n => n | _ => 0 end.

(** [x] is not greater than [y] as a string. *)
Definition string_le (x y : string) : Prop := String.compare x y <> Gt.

(** ** Reading a trace *)

(** The component states that were visible while a call was pending. *)
Definition pending_states (tr : Trace) : list State :=
  omap (fun ev => match ev with Called s _ => Some s | _ => None end) tr.

(** The notifications of a trace, in order. *)
Definition toasts (tr : Trace) : list (string * string * string) :=
  omap (fun ev => match ev with Toast t m v => Some (t, m, v) | _ => None end)
    tr.

Definition is_createWorkoutSet (c : Call) : bool :=
  match c with createWorkoutSet _ => true | _ => false end.

(** A set-creation call whose request carries no session id. *)
Definition creates_without_session (c : Call) : bool :=
  match c with
  | createWorkoutSet request =>
      match req_sessionId request with None => true | Some _ => false end
  | _ => false
  end.

(** The four statistics fields agree with the loaded list. *)
Definition statistics_current (s : State) : Prop :=
  totalSets s = totalSets (calculateStatistics s)
  /\ uniqueExercises s = uniqueExercises (calculateStatistics s)
  /\ totalReps s = totalReps (calculateStatistics s)
  /\ maxWeight s = maxWeight (calculateStatistics s).

(** The session fields and the held sets. *)
Definition session_part (s : State)
  : option string * bool * string * list WorkoutSet * list WorkoutSet :=
  (sessionId s, sessionExists s, sessionDate s, loggedSets s, allLoggedSets s).

(** The draft values of the form. *)
Definition form_part (s : State)
  : option string * option string * option string * option string :=
  (reps s, weight s, rpe s, notes s).

(** ** The parts of a run that depend on the template only *)

(** [validateForm] succeeds. *)
Definition form_valid (env : Env) : bool :=
  forallb (fun input => negb (missing_required input)) (template env).

(** What [validateForm] makes the elements report. *)
Definition validate_events (env : Env) : Trace :=
  flat_map
    (fun input =>
       if missing_required (snd input) then [ReportValidity (fst input)]
       else [])
    (indexed (template env)).

(** What [handleClearForm] does to the elements. *)
Definition clear_events (env : Env) : Trace :=
  flat_map
    (fun input =>
       [SetCustomValidity (fst input) ""; ReportValidity (fst input)])
    (filter is_input (indexed (template env))).

(** The four assignments of [handleClearForm]. *)
Definition clear_form (s : State) : State :=
  set_notes None (set_rpe None (set_weight None (set_reps None s))).

(** The assignments of [loadWorkoutSets] after a successful fetch. *)
Definition store_sets (sets : list WorkoutSet) (s : State) : State :=
  calculateStatistics (set_loggedSets sets (set_allLoggedSets sets s)).

(** The assignments of [handleCreateSession] and [initializeLogger] for a
    session record. *)
Definition adopt_session (env : Env) (session : Session) (s : State) : State :=
  set_sessionDate (formatDate env (Session_Date__c session))
    (set_sessionExists true (set_sessionId (Some (session_Id session)) s)).

(** The assignments of [handleEndSession] after a successful closure. *)
Definition drop_session (s : State) : State :=
  set_allLoggedSets []
    (set_loggedSets []
       (set_sessionDate "" (set_sessionExists false (set_sessionId None s)))).

(** The group a muscle-group change fetches exercises for, if any. *)
Definition chosen_group (value : option string) : option string :=
  match value with
  | Some group => if truthy (VStr group) then Some group else None
  | None => None
  end.

(** ** States the component is in between handlers

    The states after handlers that run one after the other: each handler
    runs to its end, all its calls answered, before the next is
    triggered.  Handlers that overlap are the subject of [Overlap]
    below. *)

Inductive reachable : State -> Prop :=
| reachable_initial : reachable initial_state
| reachable_step env a s :
    reachable s -> reachable (fst (run (handler env a) s)).

(** ** Concrete collaborators, for running the handlers *)

Module Sample.

Definition today : Session := mkSession "a0S1" "2024-05-01".

Definition bench : WorkoutSet :=
  mkSet (Identifier "ex1") (Some "Bench Press") (Some 5) (Some 40) (Some 1).
Definition squat : WorkoutSet :=
  mkSet (Identifier "ex2") (Some "Squat") (Some 10) (Some 60) (Some 2).

(** A backend on which every call succeeds. *)
Definition backend_up (_ : list Call) (c : Call) : Result (Resp c) :=
  match c with
  | getTodaySession => Resolved (Some today)
  | createWorkoutSession => Resolved today
  | getExercisesByMuscleGroup _ =>
      Resolved [mkExercise "ex1" "Bench Press"]
  | getMuscleGroups => Resolved ["Chest"; "Legs"]
  | createWorkoutSet _ => Resolved bench
  | getWorkoutSets _ => Resolved [bench; squat]
  | endWorkoutSession _ => Resolved ()
  end.

(** A backend on which every call fails. *)
Definition backend_down (_ : list Call) (c : Call) : Result (Resp c) :=
  Rejected "offline".

(** A backend that finds today's session and fails on everything else. *)
Definition backend_flaky (_ : list Call) (c : Call) : Result (Resp c) :=
  match c with
  | getTodaySession => Resolved (Some today)
  | _ => Rejected "offline"
  end.

(** A backend without a session for today. *)
Definition backend_fresh (tr : list Call) (c : Call) : Result (Resp c) :=
  match c with
  | getTodaySession => Resolved None
  | getWorkoutSets _ => Resolved []
  | c => backend_up tr c
  end.

(** A form whose required elements are filled in. *)
Definition filled_form : list InputEl :=
  [ mkInput LightningCombobox true (Some "Chest");
    mkInput LightningCombobox true (Some "ex1");
    mkInput LightningInput true (Some "5");
    mkInput LightningInput false None ].

(** A form whose required rep count is empty. *)
Definition empty_form : list InputEl :=
  [ mkInput LightningCombobox true (Some "Chest");
    mkInput LightningCombobox true (Some "ex1");
    mkInput LightningInput true None;
    mkInput LightningInput false None ].

Definition yes (_ : string) : bool := true.
Definition no (_ : string) : bool := false.

Definition env_up : Env := mkEnv backend_up yes filled_form id.
Definition env_down : Env := mkEnv backend_down yes filled_form id.
Definition env_flaky : Env := mkEnv backend_flaky yes filled_form id.
Definition env_fresh : Env := mkEnv backend_fresh yes filled_form id.
Definition env_declined : Env := mkEnv backend_up no filled_form id.
Definition env_invalid : Env := mkEnv backend_up yes empty_form id.

(** A component that holds a session with two sets. *)
Definition in_session : State :=
  fst (run (initializeLogger env_up) initial_state).

End Sample.

(** ** Notifications the handlers show *)

Definition init_error : string * string * string :=
  ("Error", "Failed to initialize workout logger", "error").
Definition load_error : string * string * string :=
  ("Error", "Failed to load workout sets", "error").
Definition add_error : string * string * string :=
  ("Error", "Failed to add workout set", "error").
Definition add_success : string * string * string :=
  ("Success", "Workout set added successfully", "success").
Definition end_error : string * string * string :=
  ("Error", "Failed to end workout session", "error").
Definition end_success : string * string * string :=
  ("Success", "Workout session ended successfully", "success").

(** The option list built from the fetched exercises. *)
Definition exercise_options (exercises : list Exercise) : list ComboOption :=
  map (fun ex => mkOption (exercise_Name ex) (exercise_Id ex)) exercises.

(** The option list built from the fetched group names. *)
Definition group_options (groups : list string) : list ComboOption :=
  map (fun group => mkOption group group) groups.

(** The set-creation calls among the remote calls of a trace. *)
Definition creations (tr : Trace) : list Call :=
  filter is_createWorkoutSet (calls tr).

(** The four statistics fields. *)
Definition statistics (s : State) : Z * Z * Z * Z :=
  (totalSets s, uniqueExercises s, totalReps s, maxWeight s).

Definition is_AddSet (a : Action) : bool :=
  match a with AddSet => true | _ => false end.

Definition is_EndSession (a : Action) : bool :=
  match a with EndSession => true | _ => false end.

(** ** Configuration and computed properties (lines 46-50, 120-129) *)

Definition unitOptions : list ComboOption :=
  [ mkOption "kg" "kg"; mkOption "lbs" "lbs"; mkOption "plates" "plates" ].

(** The getter [unitAbbreviation]. *)
Definition unitAbbreviation (s : State) : string :=
  if String.eqb (unit s) "kg" then "kg"
  else if String.eqb (unit s) "lbs" then "lbs"
  else if String.eqb (unit s) "plates" then "plates"
  else "".

(** The getter [toggleTableTitle]. *)
Definition toggleTableTitle (s : State) : string :=
  if tableVisible s then "Collapse" else "Expand".

(** ** Vocabulary for the further properties *)

(** How a handler ends when it is started with an empty trace. *)
Definition outcome (m : M ()) (s : State) : Outcome () :=
  fst (fst (m s [])).

(** The elements [validateForm] finds required and empty, by position. *)
Definition missing_elements (env : Env) : list nat :=
  map fst (filter (fun input => missing_required (snd input))
             (indexed (template env))).

(** The positions of the [lightning-input] elements of the template. *)
Definition input_positions (env : Env) : list nat :=
  map fst (filter is_input (indexed (template env))).

(** The elements a trace touches, by [reportValidity] or
    [setCustomValidity]. *)
Definition touched_elements (tr : Trace) : list nat :=
  omap (fun ev => match ev with
                  | ReportValidity i => Some i
                  | SetCustomValidity i _ => Some i
                  | _ => None
                  end) tr.

(** The session fields are consistent: the flag is set exactly when an id
    is held, and without a session the date is empty. *)
Definition session_consistent (s : State) : Prop :=
  sessionExists s = bool_decide (is_Some (sessionId s))
  /\ (sessionExists s = false -> sessionDate s = "").

(** No two different records of the list tie under the comparator. *)
Definition tie_free (fieldName : string) (l : list WorkoutSet) : Prop :=
  forall a b, a ∈ l -> b ∈ l -> compareSets fieldName "asc" a b = 0 -> a = b.

(** The field is one the records carry. *)
Definition known_field (fieldName : string) : bool :=
  String.eqb fieldName "Exercise__c" || String.eqb fieldName "exerciseName"
  || String.eqb fieldName "Reps" || String.eqb fieldName "Weight_Kg"
  || String.eqb fieldName "SetCount".

(** The state after the user has typed a whole form. *)
Definition typed_form (exercise r w : option string) (u : string)
  (p n : option string) (env : Env) (s : State) : State :=
  fold_left (fun s a => fst (run (handler env a) s))
    [ExerciseChange exercise; RepsChange r; WeightChange w; UnitChange u;
     RpeChange p; NotesChange n] s.

(** The session id a remote call is made for, when it takes one. *)
Definition call_session (c : Call) : option string :=
  match c with
  | createWorkoutSet request => req_sessionId request
  | getWorkoutSets sid => sid
  | endWorkoutSession sid => sid
  | _ => None
  end.

(** The display list after the user has sorted a column. *)
Definition sorted_display (env : Env) (fieldName sortDirection : string)
  (s : State) : list WorkoutSet :=
  loggedSets (fst (run (handler env (SortData fieldName sortDirection)) s)).

(** Puts the four draft values of [s] into [s']. *)
Definition with_form_of (s s' : State) : State :=
  set_notes (notes s) (set_rpe (rpe s) (set_weight (weight s)
    (set_reps (reps s) s'))).

Definition create_success : string * string * string :=
  ("Success", "New workout session started", "success").
Definition create_error : string * string * string :=
  ("Error", "Failed to create session", "error").
Definition refresh_info : string * string * string :=
  ("Info", "Refreshing workout data...", "info").

(** The statistics [calculateStatistics] derives from a list of sets. *)
Definition statistics_of (sets : list WorkoutSet) : Z * Z * Z * Z :=
  statistics (calculateStatistics (loaded sets initial_state)).

Definition stat_total (st : Z * Z * Z * Z) : Z := st.1.1.1.
Definition stat_unique (st : Z * Z * Z * Z) : Z := st.1.1.2.
Definition stat_reps (st : Z * Z * Z * Z) : Z := st.1.2.
Definition stat_max (st : Z * Z * Z * Z) : Z := st.2.

(** The console messages of a trace. *)
Definition console_errors (tr : Trace) : list string :=
  omap (fun ev => match ev with ConsoleError label _ => Some label | _ => None end)
    tr.

(** Puts the muscle-group selection of [s] into [s']. *)
Definition with_selection_of (s s' : State) : State :=
  set_exerciseOptions (exerciseOptions s)
    (set_selectedExerciseId (selectedExerciseId s)
       (set_selectedMuscleGroup (selectedMuscleGroup s) s')).

(** * Handlers that overlap

    An [async] handler gives control back at every [await], and whatever
    else is ready then runs: another handler the user triggers, or the
    continuation of a handler whose call has settled.  This second
    embedding keeps the suspension points.  A handler is a tree whose
    synchronous stretches are the computations of the first embedding,
    [Sync m], and whose [await]s are nodes that carry the rest of the
    handler as a continuation. *)

Module Overlap.

Inductive Prog (A : Type) : Type :=
| Ret (a : A)
| Throw (error : string)
| Sync {B : Type} (m : M B) (k : Outcome B -> Prog A)
| Await (c : Call) (k : Result (Resp c) -> Prog A)
| Tick (k : Prog A)
| Fork (p : Prog ()) (k : Prog A).
Arguments Ret {A} a.
Arguments Throw {A} error.
Arguments Sync {A B} m k.
Arguments Await {A} c k.
Arguments Tick {A} k.
Arguments Fork {A} p k.

(** A synchronous stretch; an exception in it is thrown on. *)
Definition sync {B} (m : M B) : Prog B :=
  Sync m (fun o => match o with Normal b => Ret b | Thrown e => Throw e end).

(** [await c] for a remote call: the handler is suspended until the call
    settles, and a rejection is thrown at the [await]. *)
Definition await (c : Call) : Prog (Resp c) :=
  Await c (fun r => match r with Resolved v => Ret v | Rejected e => Throw e end).

Fixpoint bind {A B} (p : Prog A) (f : A -> Prog B) : Prog B :=
  match p with
  | Ret a => f a
  | Throw e => Throw e
  | Sync m k => Sync m (fun o => bind (k o) f)
  | Await c k => Await c (fun r => bind (k r) f)
  | Tick k => Tick (bind k f)
  | Fork p k => Fork p (bind k f)
  end.

(** [try { body } catch (error) { handler error }].  A call that was
    started without [await] is outside the [try]. *)
Fixpoint try_catch (body : Prog ()) (handler : string -> Prog ()) : Prog () :=
  match body with
  | Ret a => Ret a
  | Throw e => handler e
  | Sync m k => Sync m (fun o => try_catch (k o) handler)
  | Await c k => Await c (fun r => try_catch (k r) handler)
  | Tick k => Tick (try_catch k handler)
  | Fork p k => Fork p (try_catch k handler)
  end.

(** [try { body } finally { cleanup }]. *)
Fixpoint try_finally (body : Prog ()) (cleanup : Prog ()) : Prog () :=
  match body with
  | Ret a => bind cleanup (fun _ => Ret a)
  | Throw e => bind cleanup (fun _ => Throw e)
  | Sync m k => Sync m (fun o => try_finally (k o) cleanup)
  | Await c k => Await c (fun r => try_finally (k r) cleanup)
  | Tick k => Tick (try_finally k cleanup)
  | Fork p k => Fork p (try_finally k cleanup)
  end.

Definition try_catch_finally (body : Prog ()) (handler : string -> Prog ())
  (cleanup : Prog ()) : Prog () :=
  try_finally (try_catch body handler) cleanup.

(** [await p] where [p] is the promise of one of the component's own
    [async] methods: the callee runs, and the caller goes on in a later
    turn. *)
Definition await_method {A} (p : Prog A) : Prog A :=
  bind p (fun a => Tick (Ret a)).


Declare Scope prog_scope.
Delimit Scope prog_scope with prog.
Notation "x <- m ;; k" := (bind m (fun x => k))
  (at level 100, m at next level, right associativity) : prog_scope.
Notation "m ;; k" := (bind m (fun _ => k))
  (at level 100, right associativity) : prog_scope.
Local Open Scope prog_scope.

Section Component.

Variable env : Env.

(** [await refreshApex(this.allLoggedSets)]: resolves without a request,
    and the handler goes on in a later turn. *)
Definition refreshApex : Prog () :=
  sync (emit RefreshApex) ;; Tick (Ret ()).

(** Lines 171-181. *)
Definition loadMuscleGroups : Prog () :=
  try_catch
    (groups <- await getMuscleGroups ;;
     sync (assign (set_muscleGroupOptions
                     (map (fun group => mkOption group group) groups))))
    (fun error => sync (console_error "Error loading muscle groups:" error)).

(** Lines 183-201. *)
Definition handleMuscleGroupChange (value : option string) : Prog () :=
  sync (assign (set_selectedMuscleGroup value)) ;;
  sync (assign (set_selectedExerciseId None)) ;;
  sync (assign (set_exerciseOptions [])) ;;
  s <- sync this ;;
  match selectedMuscleGroup s with
  | Some group =>
      if truthy (VStr group) then
        try_catch
          (exercises <- await (getExercisesByMuscleGroup group) ;;
           sync (assign (set_exerciseOptions
                           (map (fun ex => mkOption (exercise_Name ex)
                                             (exercise_Id ex)) exercises))))
          (fun error => sync (console_error "Error loading exercises:" error))
      else Ret ()
  | None => Ret ()
  end.

(** Lines 203-216. *)
Definition loadWorkoutSets : Prog () :=
  sync (assign (set_isLoading true)) ;;
  try_catch_finally
    (s <- sync this ;;
     sets <- await (getWorkoutSets (sessionId s)) ;;
     sync (assign (set_allLoggedSets sets)) ;;
     sync (assign (set_loggedSets sets)) ;;
     sync (assign calculateStatistics))
    (fun error =>
       sync (showToast "Error" "Failed to load workout sets" "error") ;;
       sync (console_error "Error loading sets:" error))
    (sync (assign (set_isLoading false))).

(** Lines 135-152. *)
Definition initializeLogger : Prog () :=
  sync (assign (set_isLoading true)) ;;
  try_catch_finally
    (session <- await getTodaySession ;;
     match session with
     | Some session =>
         sync (assign (set_sessionId (Some (session_Id session)))) ;;
         sync (assign (set_sessionExists true)) ;;
         sync (assign (set_sessionDate
                         (formatDate env (Session_Date__c session)))) ;;
         await_method loadWorkoutSets
     | None => Ret ()
     end ;;
     await_method loadMuscleGroups)
    (fun error =>
       sync (showToast "Error" "Failed to initialize workout logger" "error") ;;
       sync (console_error "Initialization error:" error))
    (sync (assign (set_isLoading false))).

(** Lines 131-133: the method is started and not awaited. *)
Definition connectedCallback : Prog () := Fork initializeLogger (Ret ()).

(** Lines 232-246. *)
Definition handleCreateSession : Prog () :=
  sync (assign (set_isLoading true)) ;;
  try_catch_finally
    (session <- await createWorkoutSession ;;
     sync (assign (set_sessionId (Some (session_Id session)))) ;;
     sync (assign (set_sessionExists true)) ;;
     sync (assign (set_sessionDate
                     (formatDate env (Session_Date__c session)))) ;;
     sync (showToast "Success" "New workout session started" "success"))
    (fun error =>
       sync (showToast "Error" "Failed to create session" "error") ;;
       sync (console_error "Error creating session:" error))
    (sync (assign (set_isLoading false))).

(** Lines 262-293; [validateForm] and [handleClearForm] are synchronous. *)
Definition handleAddSet : Prog () :=
  valid <- sync (validateForm env) ;;
  if negb valid then Ret ()
  else
    sync (assign (set_isLoading true)) ;;
    try_catch_finally
      (s <- sync this ;;
       await (createWorkoutSet (set_request s)) ;;
       sync (handleClearForm env) ;;
       refreshApex ;;
       await_method loadWorkoutSets ;;
       sync (showToast "Success" "Workout set added successfully" "success"))
      (fun error =>
         sync (showToast "Error" "Failed to add workout set" "error") ;;
         sync (console_error "Error adding set:" error))
      (sync (assign (set_isLoading false))).

(** Lines 309-331. *)
Definition handleEndSession : Prog () :=
  confirmed <- sync (ask_confirm env end_prompt) ;;
  if negb confirmed then Ret ()
  else
    sync (assign (set_isLoading true)) ;;
    try_catch_finally
      (s <- sync this ;;
       await (endWorkoutSession (sessionId s)) ;;
       sync (assign (set_sessionId None)) ;;
       sync (assign (set_sessionExists false)) ;;
       sync (assign (set_sessionDate "")) ;;
       sync (assign (set_loggedSets [])) ;;
       sync (assign (set_allLoggedSets [])) ;;
       sync (showToast "Success" "Workout session ended successfully"
               "success"))
      (fun error =>
         sync (showToast "Error" "Failed to end workout session" "error") ;;
         sync (console_error "Error ending session:" error))
      (sync (assign (set_isLoading false))).

(** Lines 333-336: the load is started and not awaited; the toast follows
    at once. *)
Definition handleRefreshTable : Prog () :=
  Fork loadWorkoutSets
    (sync (showToast "Info" "Refreshing workout data..." "info")).

(** The handlers without an [await] are the synchronous ones of the first
    embedding. *)
Definition react (a : Action) : Prog () :=
  match a with
  | Connected => connectedCallback
  | MuscleGroupChange v => handleMuscleGroupChange v
  | CreateSession => handleCreateSession
  | AddSet => handleAddSet
  | EndSession => handleEndSession
  | RefreshTable => handleRefreshTable
  | ExerciseChange _ | RepsChange _ | WeightChange _ | UnitChange _
  | RpeChange _ | NotesChange _ | ClearForm | ToggleTable | SortData _ _
  | LoadMore => sync (handler env a)
  end.

End Component.

(** ** The component between two turns *)

(** A suspended handler: the call it waits for, with the calls made before
    it, and what it does with the answer; or a handler that goes on in a
    later turn. *)
Inductive Task :=
| Waiting (history : list Call) (c : Call) (k : Result (Resp c) -> Prog ())
| Resuming (k : Prog ()).

(** The component at rest: its fields, the effects so far, and the
    suspended handlers. *)
Record Config := mkConfig {
  fields : State;
  effects : Trace;
  suspended : list Task
}.

(** Runs a handler, or the continuation of one, up to its next [await] or
    its end.  A method started without [await] runs up to its own first
    [await] before the caller goes on.  An exception nothing catches ends
    the handler. *)
Fixpoint exec (p : Prog ()) (s : State) (tr : Trace) : Config :=
  match p with
  | Ret _ => mkConfig s tr []
  | Throw _ => mkConfig s tr []
  | Sync m k => match m s tr with (o, s', tr') => exec (k o) s' tr' end
  | Await c k => mkConfig s (tr ++ [Called s c]) [Waiting (calls tr) c k]
  | Tick k => mkConfig s tr [Resuming k]
  | Fork p k =>
      let started := exec p s tr in
      let rest := exec k (fields started) (effects started) in
      mkConfig (fields rest) (effects rest)
        (suspended started ++ suspended rest)
  end.

(** A turn of the component on configuration [cfg]: [p] runs and its
    suspensions join [others]. *)
Definition turn (p : Prog ()) (cfg : Config) (others : list Task) : Config :=
  let r := exec p (fields cfg) (effects cfg) in
  mkConfig (fields r) (effects r) (others ++ suspended r).

(** The user triggers a handler. *)
Definition dispatch (env : Env) (a : Action) (cfg : Config) : Config :=
  turn (react env a) cfg (suspended cfg).

(** How a suspended handler can go on: with any answer to its call. *)
Inductive resumes : Task -> Prog () -> Prop :=
| resumes_call history c k r : resumes (Waiting history c k) (k r)
| resumes_turn k : resumes (Resuming k) k.

(** The configurations the component can be in: started, then any number
    of turns, each either a handler the user triggers or a suspended
    handler going on, in any order. *)
Inductive occurs : Config -> Prop :=
| occurs_start : occurs (mkConfig initial_state [] [])
| occurs_dispatch env a cfg :
    occurs cfg -> occurs (dispatch env a cfg)
| occurs_resume cfg before t after p :
    occurs cfg ->
    suspended cfg = before ++ t :: after ->
    resumes t p ->
    occurs (turn p cfg (before ++ after)).

(** The continuation of a suspended handler when its call is answered by
    [answer]. *)
Definition resume_with (answer : list Call -> forall c, Result (Resp c))
  (t : Task) : Prog () :=
  match t with
  | Waiting history c k => k (answer history c)
  | Resuming k => k
  end.

(** The [i]-th suspended handler goes on, its call answered by [answer]. *)
Definition settle (i : nat) (answer : list Call -> forall c, Result (Resp c))
  (cfg : Config) : Config :=
  match suspended cfg !! i with
  | Some t =>
      turn (resume_with answer t) cfg
        (take i (suspended cfg) ++ drop (S i) (suspended cfg))
  | None => cfg
  end.

(** One handler on its own: every suspension goes on as soon as it can,
    its call answered by the backend of [env]. *)
Fixpoint drain (env : Env) (fuel : nat) (cfg : Config) : Config :=
  match fuel with
  | O => cfg
  | S fuel =>
      match suspended cfg with
      | [] => cfg
      | _ :: _ => drain env fuel (settle 0 (respond env) cfg)
      end
  end.

(** The calls the suspended handlers wait for. *)
Definition pending_calls (ts : list Task) : list Call :=
  omap (fun t => match t with Waiting _ c _ => Some c | Resuming _ => None end)
    ts.

(** ** Invariants of overlapping handlers *)

(** What is asked of a suspended handler: whatever the answer, its
    continuation is [Q]. *)
Definition task_ok (Q : Prog () -> Prop) (t : Task) : Prop :=
  match t with
  | Waiting _ c k => forall r, Q (k r)
  | Resuming k => Q k
  end.

(** [keeps n I p]: started in a state with [I], [p] ends its turn in a
    state with [I], and so does every later turn of it, through at most
    [n] turns. *)
Fixpoint keeps (n : nat) (I : State -> Prop) (p : Prog ()) : Prop :=
  match n with
  | O => False
  | S n =>
      forall s tr, I s ->
        I (fields (exec p s tr))
        /\ Forall (task_ok (keeps n I)) (suspended (exec p s tr))
  end.

(** ** Answers and a sample of overlapping handlers *)


(** A backend that answers an exercise fetch with [exercises] and fails
    otherwise. *)
Definition answer_exercises (exercises : list Exercise) (_ : list Call)
  (c : Call) : Result (Resp c) :=
  match c with
  | getExercisesByMuscleGroup _ => Resolved exercises
  | _ => Rejected "not asked"
  end.

(** The component is mounted and finds today's session; while its sets
    are being fetched the user presses refresh; the first fetch arrives;
    the user sorts the table by reps, descending.  The refresh and the
    rest of the initialisation are still in flight. *)
Definition mid_flight : Config :=
  dispatch Sample.env_up (SortData "Reps" "desc")
    (settle 0 Sample.backend_up
       (dispatch Sample.env_up RefreshTable
          (settle 0 Sample.backend_up
             (dispatch Sample.env_up Connected
                (mkConfig initial_state [] []))))).

End Overlap.
(** * Properties of the statistics *)

Section Statistics.

Lemma or_zero_number v : or_zero v = Spec.number v.
Proof.
  destruct v as [n|]; [|reflexivity].
  unfold or_zero, or; simpl.
  destruct (Z.eqb_spec n 0) as [->|]; reflexivity.
Qed.

Lemma fold_left_reps sets acc :
  fold_left (fun sum set => sum + or_zero (Reps set)) sets acc
  = acc + Spec.total_reps sets.
Proof.
  revert acc; induction sets as [|a sets IH]; intros acc; simpl.
  - unfold Spec.total_reps; simpl; lia.
  - rewrite IH, or_zero_number. unfold Spec.total_reps; simpl; lia.
Qed.

Lemma Math_max_lower args last : last <= Math_max args last.
Proof. unfold Math_max; induction args; simpl; lia. Qed.

Lemma Math_max_upper args last x :
  x ∈ args -> x <= Math_max args last.
Proof.
  unfold Math_max; induction 1 as [x l|x y l _ IH]; simpl; lia.
Qed.

Lemma Math_max_attained args last :
  Math_max args last = last \/ Math_max args last ∈ args.
Proof.
  unfold Math_max; induction args as [|a args IH]; simpl; [now left|].
  destruct (Z.max_spec a (fold_right Z.max last args)) as [[_ E]|[_ E]];
    rewrite E.
  - destruct IH as [IH|IH]; [now left | right; now constructor].
  - right; constructor.
Qed.

Lemma foldr_max_swap w ws : Z.max 0 (foldr Z.max w ws) = fold_right Z.max 0 (w :: ws).
Proof.
  induction ws as [|x ws IH]; simpl in *; lia.
Qed.

Lemma maxWeight_spec sets s :
  maxWeight (calculateStatistics (loaded sets s))
  = Z.max 0 (Spec.max_weight sets).
Proof.
  unfold calculateStatistics, Spec.max_weight, Math_max; simpl.
  rewrite (map_ext _ (fun set => Spec.number (Weight_Kg set)))
    by (intros; apply or_zero_number).
  destruct (map _ sets) as [|w ws]; [reflexivity|].
  symmetry; apply foldr_max_swap.
Qed.

Lemma size_of_values (l : list ExerciseRef) :
  size (list_to_set l : gset ExerciseRef) = length (remove_dups l).
Proof.
  rewrite <- (size_list_to_set (C:=gset ExerciseRef) (remove_dups l))
    by apply NoDup_remove_dups.
  f_equal. apply set_eq; intros x.
  rewrite !elem_of_list_to_set, elem_of_remove_dups. reflexivity.
Qed.

Lemma uniqueExercises_values sets s :
  uniqueExercises (calculateStatistics (loaded sets s))
  = distinct_values sets.
Proof.
  unfold calculateStatistics, distinct_values; simpl.
  now rewrite size_of_values.
Qed.

Lemma Identifier_inj : Inj (=) (=) Identifier.
Proof. intros x y E. now inversion E. Qed.

Lemma elem_of_identifiers id sets :
  id ∈ omap Spec.identifier sets
  <-> Identifier id ∈ map Exercise__c sets.
Proof.
  rewrite list_elem_of_omap, list_elem_of_In, in_map_iff.
  unfold Spec.identifier. split.
  - intros (set & Hin & E). exists set.
    split; [|now apply list_elem_of_In].
    destruct (Exercise__c set); congruence.
  - intros (set & E & Hin). exists set.
    split; [now apply list_elem_of_In|]. now rewrite E.
Qed.

(** The distinct values of the exercise property are the distinct
    identifiers, and [undefined] and [null] when some set holds them. *)
Lemma distinct_values_split sets :
  distinct_values sets
  = Spec.unique_exercises sets
    + counts_value Undefined sets + counts_value Null sets.
Proof.
  unfold distinct_values, Spec.unique_exercises, counts_value.
  set (L := map Exercise__c sets).
  set (ids := omap Spec.identifier sets).
  rewrite <- size_of_values.
  set (A := list_to_set (Identifier <$> remove_dups ids) : gset ExerciseRef).
  set (U := (if bool_decide (Undefined ∈ L) then {[Undefined]} else ∅)
            : gset ExerciseRef).
  set (N := (if bool_decide (Null ∈ L) then {[Null]} else ∅)
            : gset ExerciseRef).
  assert (HA : forall x, x ∈ A <-> exists id, x = Identifier id
                                            /\ Identifier id ∈ L).
  { intros x. unfold A. rewrite elem_of_list_to_set, list_elem_of_fmap.
    split; intros (id & -> & H); exists id; split; try reflexivity.
    - now apply elem_of_identifiers, elem_of_remove_dups.
    - now apply elem_of_remove_dups, elem_of_identifiers. }
  assert (HU : forall x, x ∈ U <-> x = Undefined /\ Undefined ∈ L).
  { intros x. unfold U. case_bool_decide.
    - rewrite elem_of_singleton. tauto.
    - rewrite elem_of_empty. tauto. }
  assert (HN : forall x, x ∈ N <-> x = Null /\ Null ∈ L).
  { intros x. unfold N. case_bool_decide.
    - rewrite elem_of_singleton. tauto.
    - rewrite elem_of_empty. tauto. }
  assert (E : (list_to_set L : gset ExerciseRef) = A ∪ U ∪ N).
  { apply set_eq; intros x.
    rewrite !elem_of_union, elem_of_list_to_set, HA, HU, HN.
    split.
    - intros H. destruct x as [| |id].
      + left; right. split; [reflexivity | exact H].
      + right. split; [reflexivity | exact H].
      + left; left. exists id. split; [reflexivity | exact H].
    - intros [[(id & -> & H)|[-> H]]|[-> H]]; exact H. }
  rewrite E, !size_union.
  - assert (size A = length (remove_dups ids)) as ->.
    { unfold A. rewrite size_list_to_set, length_fmap; [reflexivity|].
      apply (@NoDup_fmap_2 _ _ Identifier Identifier_inj), NoDup_remove_dups. }
    assert (Z.of_nat (size U)
            = if bool_decide (Undefined ∈ L) then 1 else 0) as HsU.
    { unfold U. destruct (bool_decide (Undefined ∈ L)); reflexivity. }
    assert (Z.of_nat (size N)
            = if bool_decide (Null ∈ L) then 1 else 0) as HsN.
    { unfold N. destruct (bool_decide (Null ∈ L)); reflexivity. }
    rewrite !Nat2Z.inj_add, HsU, HsN. reflexivity.
  - intros x Hx Hx'. apply HA in Hx as (id & -> & _).
    apply HU in Hx' as [Hx' _]. discriminate.
  - intros x Hx Hx'. apply HN in Hx' as [-> _].
    apply elem_of_union in Hx as [Hx|Hx].
    + apply HA in Hx as (id & Hx & _). discriminate.
    + apply HU in Hx as [Hx _]. discriminate.
Qed.

End Statistics.

(** C3 (as stated, refuted).  With a single set of weight [-5] the
    component reports a maximum weight of [0], whereas the maximum of all
    weights of that list is [-5]: the trailing [0] of
    [Math.max(..., 0)] takes part in the maximum also when the list is
    not empty.  And the [Set] of line 222 holds the values of
    [set.Exercise__c] as they are: two sets without an exercise identifier
    give one unique exercise, and a set whose property is [undefined]
    next to one whose property is [null] gives two, where there is no
    exercise identifier to count. *)
Lemma C3_statistics_counterexample :
  let light := [set_with_weight (Some (-5))] in
  let anonymous := map set_with_exercise [Undefined; Undefined] in
  let mixed := map set_with_exercise [Undefined; Null] in
  maxWeight (calculateStatistics (loaded light initial_state)) = 0
  /\ Spec.max_weight light = -5
  /\ uniqueExercises (calculateStatistics (loaded anonymous initial_state)) = 1
  /\ Spec.unique_exercises anonymous = 0
  /\ uniqueExercises (calculateStatistics (loaded mixed initial_state)) = 2
  /\ Spec.unique_exercises mixed = 0.
Proof. vm_compute. repeat split. Qed.

(** C3 (amended).  For every list of sets, [calculateStatistics] stores:
    the number of sets; the number of distinct values of the exercise
    property, which is the number of distinct exercise identifiers, plus
    one when some set has the property [undefined] (or absent), plus one
    when some set has it [null]; the sum of the rep counts, a missing
    one counting as zero; and the larger of zero and the maximum of all
    weights, a missing one counting as zero.  The maximum is never
    negative, bounds every weight, and is zero or the weight of some set.
    On the empty list all four are [0]; reps [5, 10, null] give [15];
    weights [40, null, 60] give [60].  No other field changes. *)
Theorem C3_calculateStatistics_spec (sets : list WorkoutSet) (s : State) :
  let s' := calculateStatistics (loaded sets s) in
  totalSets s' = Z.of_nat (length sets)
  /\ uniqueExercises s' = distinct_values sets
  /\ uniqueExercises s'
     = Spec.unique_exercises sets
       + counts_value Undefined sets + counts_value Null sets
  /\ totalReps s' = Spec.total_reps sets
  /\ maxWeight s' = Z.max 0 (Spec.max_weight sets)
  /\ 0 <= maxWeight s'
  /\ (forall set, set ∈ sets -> Spec.number (Weight_Kg set) <= maxWeight s')
  /\ (maxWeight s' = 0
      \/ exists set, set ∈ sets /\ Spec.number (Weight_Kg set) = maxWeight s')
  /\ s' = set_statistics (totalSets s') (uniqueExercises s') (totalReps s')
            (maxWeight s') (loaded sets s)
  /\ (let e := calculateStatistics (loaded [] s) in
      totalSets e = 0 /\ uniqueExercises e = 0
      /\ totalReps e = 0 /\ maxWeight e = 0)
  /\ totalReps (calculateStatistics
                  (loaded (map set_with_reps [Some 5; Some 10; None]) s)) = 15
  /\ maxWeight (calculateStatistics
                  (loaded (map set_with_weight [Some 40; None; Some 60]) s)) = 60.
Proof.
  intros s'.
  assert (Hw : maxWeight s'
               = Math_max (map (fun set => Spec.number (Weight_Kg set)) sets) 0).
  { subst s'; unfold calculateStatistics; simpl. f_equal.
    apply map_ext; intros; apply or_zero_number. }
  split; [reflexivity|].
  split; [apply uniqueExercises_values|].
  split; [subst s'; rewrite uniqueExercises_values;
          apply distinct_values_split|].
  split.
  { subst s'; unfold calculateStatistics; simpl.
    rewrite fold_left_reps; lia. }
  split; [apply maxWeight_spec|].
  split; [rewrite Hw; apply Math_max_lower|].
  split.
  { intros set Hin; rewrite Hw. apply Math_max_upper.
    apply list_elem_of_In, in_map_iff. exists set; split; [reflexivity|].
    now apply list_elem_of_In. }
  split.
  { rewrite Hw.
    destruct (Math_max_attained
                (map (fun set => Spec.number (Weight_Kg set)) sets) 0)
      as [E|E]; [now left|right].
    apply list_elem_of_In, in_map_iff in E. destruct E as (set & E & Hin).
    exists set; split; [now apply list_elem_of_In | exact E]. }
  split; [reflexivity|].
  split; [repeat split|].
  split; reflexivity.
Qed.

(** * Properties of the sort *)

Section InsertionSort.

Context {A : Type} (compareFn : A -> A -> Z).

Let R (a b : A) : Prop := compareFn a b <= 0.

Lemma insert_sorted_Permutation x l :
  insert_sorted compareFn x l ≡ₚ x :: l.
Proof.
  induction l as [|y l IH]; simpl; [reflexivity|].
  destruct (compareFn x y <=? 0); [reflexivity|].
  rewrite IH. apply perm_swap.
Qed.

Lemma Array_sort_Permutation l : Array_sort compareFn l ≡ₚ l.
Proof.
  induction l as [|x l IH]; simpl; [reflexivity|].
  rewrite insert_sorted_Permutation. now constructor.
Qed.

(** A comparator is consistent when swapping its arguments negates the
    result and "not greater" is transitive. *)
Hypothesis compare_opp : forall a b, compareFn b a = - compareFn a b.
Hypothesis compare_trans : forall a b c, R a b -> R b c -> R a c.

Lemma compare_total a b : R a b \/ R b a.
Proof. unfold R. rewrite (compare_opp a b). lia. Qed.

Lemma insert_sorted_StronglySorted x l :
  StronglySorted R l -> StronglySorted R (insert_sorted compareFn x l).
Proof.
  induction 1 as [|y l Hl IH Hy]; simpl.
  - repeat constructor.
  - destruct (Z.leb_spec (compareFn x y) 0) as [Hxy|Hxy].
    + constructor; [now constructor|].
      constructor; [exact Hxy|].
      eapply Forall_impl; [exact Hy|]. intros z Hz.
      eapply compare_trans; [exact Hxy | exact Hz].
    + constructor; [exact IH|].
      rewrite insert_sorted_Permutation. constructor; [|exact Hy].
      destruct (compare_total x y) as [H|H]; [unfold R in H; lia | exact H].
Qed.

Lemma Array_sort_StronglySorted l : StronglySorted R (Array_sort compareFn l).
Proof.
  induction l as [|x l IH]; simpl; [constructor|].
  now apply insert_sorted_StronglySorted.
Qed.

(** The sort is stable: elements that tie with [k] keep their order. *)
Lemma insert_sorted_ties k x l :
  filter (fun y => compareFn k y = 0) (insert_sorted compareFn x l)
  = filter (fun y => compareFn k y = 0) (x :: l).
Proof.
  induction l as [|y l IH]; simpl; [reflexivity|].
  destruct (Z.leb_spec (compareFn x y) 0) as [Hxy|Hxy]; [reflexivity|].
  rewrite filter_cons, IH, !filter_cons.
  destruct (decide (compareFn k y = 0)) as [Hy|Hy]; [|reflexivity].
  destruct (decide (compareFn k x = 0)) as [Hx|Hx]; [|reflexivity].
  exfalso.
  assert (R x y) by (apply (compare_trans x k y); unfold R;
                     [rewrite compare_opp|]; lia).
  unfold R in *; lia.
Qed.

Lemma Array_sort_stable k l :
  filter (fun y => compareFn k y = 0) (Array_sort compareFn l)
  = filter (fun y => compareFn k y = 0) l.
Proof.
  induction l as [|x l IH]; simpl; [reflexivity|].
  rewrite insert_sorted_ties, !filter_cons, IH. reflexivity.
Qed.

End InsertionSort.

Section Comparator.

Lemma three_way_opp x y : three_way y x = - three_way x y.
Proof. unfold three_way; lia. Qed.

Lemma three_way_range x y :
  three_way x y = -1 \/ three_way x y = 0 \/ three_way x y = 1.
Proof.
  unfold three_way; destruct (gt x y), (gt y x); simpl; lia.
Qed.

Lemma compareSets_three_way f d a b :
  compareSets f d a b
  = (if String.eqb d "desc" then -1 else 1)
    * three_way (coerced f a) (coerced f b).
Proof. reflexivity. Qed.

Lemma compareSets_opp f d a b : compareSets f d b a = - compareSets f d a b.
Proof.
  rewrite !compareSets_three_way, (three_way_opp (coerced f a)).
  destruct (String.eqb d "desc"); lia.
Qed.

Lemma gt_numeric x y :
  numeric_like x -> numeric_like y -> gt x y = (num_of y <? num_of x).
Proof. intros [|m] [|n]; reflexivity. Qed.

Lemma three_way_numeric x y :
  numeric_like x -> numeric_like y ->
  (three_way x y <= 0 <-> num_of x <= num_of y).
Proof.
  intros Hx Hy; unfold three_way.
  rewrite (gt_numeric x y), (gt_numeric y x) by assumption.
  destruct (Z.ltb_spec (num_of y) (num_of x)),
           (Z.ltb_spec (num_of x) (num_of y)); simpl; lia.
Qed.

Lemma string_le_trans x y z : string_le x y -> string_le y z -> string_le x z.
Proof.
  unfold string_le; intros Hxy Hyz.
  destruct (String.compare x y) eqn:Exy; [| |congruence].
  - apply OrderedTypeEx.String_as_OT.cmp_eq in Exy; now subst.
  - destruct (String.compare y z) eqn:Eyz; [| |congruence].
    + apply OrderedTypeEx.String_as_OT.cmp_eq in Eyz; subst.
      rewrite Exy; discriminate.
    + apply OrderedTypeEx.String_as_OT.cmp_lt in Exy, Eyz.
      pose proof (OrderedTypeEx.String_as_OT.lt_trans _ _ _ Exy Eyz) as H.
      apply OrderedTypeEx.String_as_OT.cmp_lt in H.
      unfold OrderedTypeEx.String_as_OT.cmp in H. rewrite H; discriminate.
Qed.

Lemma three_way_textual x y :
  three_way (VStr x) (VStr y) <= 0 <-> string_le x y.
Proof.
  unfold three_way, string_le; simpl.
  rewrite (String.compare_antisym y x).
  destruct (String.compare x y); simpl; split; intros; try lia;
    congruence.
Qed.

Lemma coerced_kind f :
  (forall a, numeric_like (coerced f a)) \/ (forall a, textual (coerced f a)).
Proof.
  unfold coerced, get_field.
  destruct (String.eqb f "Exercise__c");
    [right; intros a; destruct (Exercise__c a) as [| |x]; unfold or; simpl;
     [| |destruct (String.eqb x ""); simpl]; constructor|].
  destruct (String.eqb f "exerciseName");
    [right; intros a; destruct (exerciseName a) as [x|]; unfold or; simpl;
     [destruct (String.eqb x ""); simpl|]; constructor|].
  destruct (String.eqb f "Reps");
    [left; intros a; destruct (Reps a) as [x|]; unfold or; simpl;
     [destruct (x =? 0); simpl|]; constructor|].
  destruct (String.eqb f "Weight_Kg");
    [left; intros a; destruct (Weight_Kg a) as [x|]; unfold or; simpl;
     [destruct (x =? 0); simpl|]; constructor|].
  destruct (String.eqb f "SetCount");
    [left; intros a; destruct (SetCount a) as [x|]; unfold or; simpl;
     [destruct (x =? 0); simpl|]; constructor|].
  left; intros a; constructor.
Qed.

(** On the cells of one column "not greater" is transitive. *)
Lemma three_way_trans f a b c :
  three_way (coerced f a) (coerced f b) <= 0 ->
  three_way (coerced f b) (coerced f c) <= 0 ->
  three_way (coerced f a) (coerced f c) <= 0.
Proof.
  destruct (coerced_kind f) as [K|K].
  - rewrite !three_way_numeric by apply K. lia.
  - destruct (K a) as [x]. destruct (K b) as [y]. destruct (K c) as [z].
    rewrite !three_way_textual. apply string_le_trans.
Qed.

Lemma in_order_total f d a b : in_order f d a b \/ in_order f d b a.
Proof. unfold in_order. rewrite (compareSets_opp f d a b). lia. Qed.

Lemma in_order_trans f d a b c :
  in_order f d a b -> in_order f d b c -> in_order f d a c.
Proof.
  unfold in_order. rewrite !compareSets_three_way.
  destruct (String.eqb d "desc").
  - rewrite <- (Z.opp_involutive (three_way (coerced f a) (coerced f b))),
      <- (Z.opp_involutive (three_way (coerced f b) (coerced f c))),
      <- (Z.opp_involutive (three_way (coerced f a) (coerced f c))),
      <- !three_way_opp.
    intros H1 H2.
    pose proof (three_way_trans f c b a) as T. lia.
  - pose proof (three_way_trans f a b c) as T. lia.
Qed.

End Comparator.

(** C6.  For every field name and direction, [sortData] rearranges the
    display list, and nothing else, into the order of its comparator: the
    result is a permutation of the list in which every element may stand
    in front of every later one, and elements that tie keep their order.  The comparator reads the field of both
    records, replaces a missing value by the empty string, forms the
    three-way result [(a > b) - (b > a)], which is [-1], [0] or [1], and
    multiplies it by [-1] exactly when the direction is ["desc"].  On sets
    numbered [1, 2, 3], sorting by [SetCount] ascending and then descending
    gives [3, 2, 1], and ascending again gives back [1, 2, 3]. *)
Theorem C6_sortData_spec (fieldName sortDirection : string) (s : State) :
  let s' := sortData fieldName sortDirection s in
  loggedSets s' ≡ₚ loggedSets s
  /\ s' = set_loggedSets (loggedSets s') s
  /\ StronglySorted (in_order fieldName sortDirection) (loggedSets s')
  /\ (forall k,
        filter (fun a => compareSets fieldName sortDirection k a = 0)
          (loggedSets s')
        = filter (fun a => compareSets fieldName sortDirection k a = 0)
            (loggedSets s))
  /\ (forall a, get_field fieldName a = VUndef ->
                coerced fieldName a = VStr "")
  /\ (forall a b,
        compareSets fieldName sortDirection a b
        = (if String.eqb sortDirection "desc" then -1 else 1)
          * three_way (coerced fieldName a) (coerced fieldName b))
  /\ (forall x y,
        (three_way x y = -1 \/ three_way x y = 0 \/ three_way x y = 1)
        /\ (gt x y = true -> gt y x = false -> three_way x y = 1)
        /\ (gt y x = true -> gt x y = false -> three_way x y = -1)
        /\ (gt x y = gt y x -> three_way x y = 0))
  /\ (let s0 := displaying [1; 2; 3] s in
      let s1 := sortData "SetCount" "asc" s0 in
      let s2 := sortData "SetCount" "desc" s1 in
      let s3 := sortData "SetCount" "asc" s2 in
      displayed_counts s1 = [Some 1; Some 2; Some 3]
      /\ displayed_counts s2 = [Some 3; Some 2; Some 1]
      /\ displayed_counts s3 = [Some 1; Some 2; Some 3]).
Proof.
  intros s'; subst s'; unfold sortData; simpl.
  split; [apply Array_sort_Permutation|].
  split; [reflexivity|].
  split.
  { apply (Array_sort_StronglySorted (compareSets fieldName sortDirection)).
    - intros a b; apply compareSets_opp.
    - intros a b c; apply in_order_trans. }
  split.
  { intros k.
    apply (Array_sort_stable (compareSets fieldName sortDirection)).
    - intros a b; apply compareSets_opp.
    - intros a b c; apply in_order_trans. }
  split; [intros a E; unfold coerced; rewrite E; reflexivity|].
  split; [intros a b; apply compareSets_three_way|].
  split.
  { intros x y. split; [apply three_way_range|].
    unfold three_way.
    repeat split; intros H; try intros H'; rewrite ?H, ?H'; simpl; lia. }
  repeat split.
Qed.

(** * Run equations of the handlers *)

Section Runs.

Variable env : Env.

Lemma calls_app tr1 tr2 : calls (tr1 ++ tr2) = calls tr1 ++ calls tr2.
Proof. apply omap_app. Qed.

Lemma pending_states_app tr1 tr2 :
  pending_states (tr1 ++ tr2) = pending_states tr1 ++ pending_states tr2.
Proof. apply omap_app. Qed.

Lemma toasts_app tr1 tr2 : toasts (tr1 ++ tr2) = toasts tr1 ++ toasts tr2.
Proof. apply omap_app. Qed.

(** A [forEach] whose body only emits events. *)
Lemma for_each_emits {A} (l : list A) (f : A -> M ()) (g : A -> Trace) :
  (forall x s tr, f x s tr = (Normal (), s, tr ++ g x)) ->
  forall s tr, for_each l f s tr = (Normal (), s, tr ++ flat_map g l).
Proof.
  intros Hf; induction l as [|x l IH]; intros s tr; simpl.
  - unfold ret. now rewrite app_nil_r.
  - unfold bind. rewrite Hf, IH, <- app_assoc. reflexivity.
Qed.

Lemma forallb_indexed {A} (p : A -> bool) (l : list A) :
  forallb (fun x => p (snd x)) (indexed l) = forallb p l.
Proof.
  unfold indexed. generalize 0%nat.
  induction l as [|x l IH]; intros n; simpl; [reflexivity|].
  now rewrite IH.
Qed.

Lemma validateForm_run s tr :
  validateForm env s tr
  = (Normal (form_valid env), s, tr ++ validate_events env).
Proof.
  unfold validateForm, bind.
  rewrite (for_each_emits _ _
             (fun input =>
                if missing_required (snd input)
                then [ReportValidity (fst input)] else [])).
  - unfold ret, form_valid.
    rewrite (forallb_indexed (fun input => negb (missing_required input))).
    reflexivity.
  - intros x s0 tr0. destruct (missing_required (snd x)); unfold emit, ret;
      [reflexivity | now rewrite app_nil_r].
Qed.

Lemma handleClearForm_run s tr :
  handleClearForm env s tr = (Normal (), clear_form s, tr ++ clear_events env).
Proof.
  unfold handleClearForm, bind, assign.
  rewrite (for_each_emits _ _
             (fun input =>
                [SetCustomValidity (fst input) "";
                 ReportValidity (fst input)])).
  - reflexivity.
  - intros x s0 tr0. unfold emit. now rewrite <- app_assoc.
Qed.

Lemma validate_events_valid :
  form_valid env = true -> validate_events env = [].
Proof.
  unfold form_valid, validate_events.
  rewrite <- (forallb_indexed (fun input => negb (missing_required input))).
  induction (indexed (template env)) as [|x l IH]; simpl; [reflexivity|].
  intros H. apply andb_true_iff in H as [Hx Hl].
  apply negb_true_iff in Hx. rewrite Hx. now apply IH.
Qed.

Lemma calls_validate_events : calls (validate_events env) = [].
Proof.
  unfold validate_events.
  induction (indexed (template env)) as [|x l IH]; simpl; [reflexivity|].
  rewrite calls_app, IH. destruct (missing_required (snd x)); reflexivity.
Qed.

Lemma toasts_validate_events : toasts (validate_events env) = [].
Proof.
  unfold validate_events.
  induction (indexed (template env)) as [|x l IH]; simpl; [reflexivity|].
  rewrite toasts_app, IH. destruct (missing_required (snd x)); reflexivity.
Qed.

Lemma calls_clear_events : calls (clear_events env) = [].
Proof.
  unfold clear_events.
  induction (filter is_input (indexed (template env))) as [|x l IH];
    simpl; [reflexivity | exact IH].
Qed.

Lemma pending_clear_events : pending_states (clear_events env) = [].
Proof.
  unfold clear_events.
  induction (filter is_input (indexed (template env))) as [|x l IH];
    simpl; [reflexivity | exact IH].
Qed.

Lemma toasts_clear_events : toasts (clear_events env) = [].
Proof.
  unfold clear_events.
  induction (filter is_input (indexed (template env))) as [|x l IH];
    simpl; [reflexivity | exact IH].
Qed.

End Runs.

(** Unfolds the monad of the handlers. *)
Ltac unfold_monad :=
  unfold bind, assign, this, ret, emit, try_catch_finally, try_finally,
    try_catch, await, await_during, showToast, console_error, ask_confirm,
    refreshApex in *.


(** * Assignments to the loading flag commute with the other updates *)

Lemma set_isLoading_idem b b' s :
set_isLoading b (set_isLoading b' s) = set_isLoading b s.
Proof. reflexivity. Qed.

Lemma clear_form_isLoading b s :
clear_form (set_isLoading b s) = set_isLoading b (clear_form s).
Proof. reflexivity. Qed.

Lemma store_sets_isLoading sets b s :
store_sets sets (set_isLoading b s) = set_isLoading b (store_sets sets s).
Proof. reflexivity. Qed.

Lemma adopt_session_isLoading env session b s :
adopt_session env session (set_isLoading b s)
= set_isLoading b (adopt_session env session s).
Proof. reflexivity. Qed.

Lemma drop_session_isLoading b s :
drop_session (set_isLoading b s) = set_isLoading b (drop_session s).
Proof. reflexivity. Qed.

Lemma set_muscleGroupOptions_isLoading v b s :
set_muscleGroupOptions v (set_isLoading b s)
= set_isLoading b (set_muscleGroupOptions v s).
Proof. reflexivity. Qed.

(** Moves the assignments to [isLoading] outwards and merges them. *)
Ltac norm_state :=
  repeat first
    [ rewrite set_isLoading_idem
    | rewrite clear_form_isLoading
    | rewrite store_sets_isLoading
    | rewrite drop_session_isLoading
    | rewrite set_muscleGroupOptions_isLoading
    | rewrite adopt_session_isLoading ].

Section HandlerRuns.

Variable env : Env.

Lemma loadWorkoutSets_during_run pending evs s tr :
  (forall s0 tr0, pending s0 tr0 = (Normal (), s0, tr0 ++ evs)) ->
  loadWorkoutSets_during env pending s tr
  = let s1 := set_isLoading true s in
    let tr1 := tr ++ Called s1 (getWorkoutSets (sessionId s)) :: evs in
    match respond env (calls tr) (getWorkoutSets (sessionId s)) with
    | Resolved sets => (Normal (), set_isLoading false (store_sets sets s1), tr1)
    | Rejected e =>
        (Normal (), set_isLoading false s,
         tr1 ++ [Toast "Error" "Failed to load workout sets" "error";
                 ConsoleError "Error loading sets:" e])
    end.
Proof.
  intros Hp. unfold loadWorkoutSets_during. unfold_monad. simpl.
  rewrite Hp, <- app_assoc. simpl.
  destruct (respond env (calls tr) (getWorkoutSets (sessionId s)));
    simpl; [reflexivity|].
  now rewrite <- app_assoc.
Qed.

Lemma loadWorkoutSets_run s tr :
  loadWorkoutSets env s tr
  = let s1 := set_isLoading true s in
    let tr1 := tr ++ [Called s1 (getWorkoutSets (sessionId s))] in
    match respond env (calls tr) (getWorkoutSets (sessionId s)) with
    | Resolved sets => (Normal (), set_isLoading false (store_sets sets s1), tr1)
    | Rejected e =>
        (Normal (), set_isLoading false s,
         tr1 ++ [Toast "Error" "Failed to load workout sets" "error";
                 ConsoleError "Error loading sets:" e])
    end.
Proof.
  unfold loadWorkoutSets.
  apply (loadWorkoutSets_during_run (ret ()) []).
  intros s0 tr0. unfold ret. now rewrite app_nil_r.
Qed.

Lemma loadMuscleGroups_run s tr :
  loadMuscleGroups env s tr
  = let tr1 := tr ++ [Called s getMuscleGroups] in
    match respond env (calls tr) getMuscleGroups with
    | Resolved groups =>
        (Normal (),
         set_muscleGroupOptions
           (map (fun group => mkOption group group) groups) s, tr1)
    | Rejected e =>
        (Normal (), s,
         tr1 ++ [ConsoleError "Error loading muscle groups:" e])
    end.
Proof.
  unfold loadMuscleGroups. unfold_monad. simpl.
  destruct (respond env (calls tr) getMuscleGroups); reflexivity.
Qed.

Lemma handleCreateSession_run s :
  run (handleCreateSession env) s
  = let s1 := set_isLoading true s in
    match respond env [] createWorkoutSession with
    | Resolved session =>
        (set_isLoading false (adopt_session env session s1),
         [Called s1 createWorkoutSession;
          Toast "Success" "New workout session started" "success"])
    | Rejected e =>
        (set_isLoading false s,
         [Called s1 createWorkoutSession;
          Toast "Error" "Failed to create session" "error";
          ConsoleError "Error creating session:" e])
    end.
Proof.
  unfold run, handleCreateSession. unfold_monad. simpl.
  destruct (respond env [] createWorkoutSession); reflexivity.
Qed.

Lemma handleEndSession_run s :
  run (handleEndSession env) s
  = if confirm env end_prompt then
      let s1 := set_isLoading true s in
      let tr1 := [Confirm end_prompt true;
                  Called s1 (endWorkoutSession (sessionId s))] in
      match respond env [] (endWorkoutSession (sessionId s)) with
      | Resolved _ =>
          (set_isLoading false (drop_session s1),
           tr1 ++ [Toast "Success" "Workout session ended successfully"
                     "success"])
      | Rejected e =>
          (set_isLoading false s,
           tr1 ++ [Toast "Error" "Failed to end workout session" "error";
                   ConsoleError "Error ending session:" e])
      end
    else (s, [Confirm end_prompt false]).
Proof.
  unfold run, handleEndSession. unfold_monad. simpl.
  destruct (confirm env end_prompt); simpl; [|reflexivity].
  destruct (respond env [] (endWorkoutSession (sessionId s))); reflexivity.
Qed.

Lemma handleMuscleGroupChange_run value s :
  run (handleMuscleGroupChange env value) s
  = let s1 := set_exerciseOptions []
                (set_selectedExerciseId None
                   (set_selectedMuscleGroup value s)) in
    match chosen_group value with
    | Some group =>
        let tr1 := [Called s1 (getExercisesByMuscleGroup group)] in
        match respond env [] (getExercisesByMuscleGroup group) with
        | Resolved exercises =>
            (set_exerciseOptions
               (map (fun ex => mkOption (exercise_Name ex) (exercise_Id ex))
                  exercises) s1, tr1)
        | Rejected e =>
            (s1, tr1 ++ [ConsoleError "Error loading exercises:" e])
        end
    | None => (s1, [])
    end.
Proof.
  unfold run, handleMuscleGroupChange, chosen_group. unfold_monad. simpl.
  destruct value as [group|]; [|reflexivity].
  destruct (negb (String.eqb group "")); [|reflexivity]. simpl.
  destruct (respond env [] (getExercisesByMuscleGroup group)); reflexivity.
Qed.

Lemma handleAddSet_run s :
  run (handleAddSet env) s
  = if form_valid env then
      let s1 := set_isLoading true s in
      let request := createWorkoutSet (set_request s) in
      match respond env [] request with
      | Resolved _ =>
          let s2 := clear_form s1 in
          let fetch := getWorkoutSets (sessionId s) in
          let tr2 := Called s1 request
                       :: clear_events env ++ [RefreshApex; Called s2 fetch] in
          match respond env [request] fetch with
          | Resolved sets =>
              (set_isLoading false (store_sets sets s2),
               tr2 ++ [Toast "Success" "Workout set added successfully"
                         "success"])
          | Rejected e =>
              (set_isLoading false (clear_form s),
               tr2 ++ [Toast "Error" "Failed to load workout sets" "error";
                       ConsoleError "Error loading sets:" e;
                       Toast "Success" "Workout set added successfully"
                         "success"])
          end
      | Rejected e =>
          (set_isLoading false s,
           [Called s1 request;
            Toast "Error" "Failed to add workout set" "error";
            ConsoleError "Error adding set:" e])
      end
    else (s, validate_events env).
Proof.
  unfold run, handleAddSet, bind at 1. rewrite validateForm_run.
  destruct (form_valid env) eqn:V; simpl; [|reflexivity].
  rewrite (validate_events_valid env V).
  unfold try_catch_finally, try_finally, try_catch, bind, assign, this,
    await, await_during, ret, showToast, console_error, refreshApex, emit.
  simpl.
  change (set_request (set_isLoading true s)) with (set_request s).
  destruct (respond env [] (createWorkoutSet (set_request s)));
    simpl; [|reflexivity].
  rewrite handleClearForm_run, loadWorkoutSets_run. simpl.
  rewrite !calls_app, calls_clear_events. simpl.
  destruct (respond env [createWorkoutSet (set_request s)]
              (getWorkoutSets (sessionId s))); simpl;
    rewrite <- !app_assoc; norm_state; reflexivity.
Qed.

Lemma handleRefreshTable_run s :
  run (handleRefreshTable env) s
  = let s1 := set_isLoading true s in
    let tr1 := [Called s1 (getWorkoutSets (sessionId s));
                Toast "Info" "Refreshing workout data..." "info"] in
    match respond env [] (getWorkoutSets (sessionId s)) with
    | Resolved sets => (set_isLoading false (store_sets sets s1), tr1)
    | Rejected e =>
        (set_isLoading false s,
         tr1 ++ [Toast "Error" "Failed to load workout sets" "error";
                 ConsoleError "Error loading sets:" e])
    end.
Proof.
  unfold run, handleRefreshTable.
  rewrite (loadWorkoutSets_during_run _
             [Toast "Info" "Refreshing workout data..." "info"])
    by reflexivity.
  simpl.
  destruct (respond env [] (getWorkoutSets (sessionId s))); reflexivity.
Qed.

(** What [initializeLogger] does once today's session has been fetched:
    the optional set load, then the muscle groups. *)
Lemma initializeLogger_run s :
  run (initializeLogger env) s
  = let s1 := set_isLoading true s in
    let tr1 := [Called s1 getTodaySession] in
    match respond env [] getTodaySession with
    | Resolved session =>
        let '(_, s2, tr2) :=
          match session with
          | Some session =>
              loadWorkoutSets env (adopt_session env session s1) tr1
          | None => (Normal (), s1, tr1)
          end in
        let '(_, s3, tr3) := loadMuscleGroups env s2 tr2 in
        (set_isLoading false s3, tr3)
    | Rejected e =>
        (set_isLoading false s,
         tr1 ++ [Toast "Error" "Failed to initialize workout logger" "error";
                 ConsoleError "Initialization error:" e])
    end.
Proof.
  unfold run, initializeLogger.
  unfold try_catch_finally, try_finally, try_catch, bind, assign, this,
    await, await_during, ret, showToast, console_error, emit.
  simpl.
  destruct (respond env [] getTodaySession) as [[session|]|e];
    simpl; [| |reflexivity].
  - unfold adopt_session. rewrite !loadWorkoutSets_run; simpl.
    destruct (respond env [getTodaySession]
                (getWorkoutSets (Some (session_Id session)))); simpl;
      rewrite !loadMuscleGroups_run; simpl;
      destruct (respond env _ getMuscleGroups); reflexivity.
  - rewrite !loadMuscleGroups_run; simpl.
    destruct (respond env _ getMuscleGroups); reflexivity.
Qed.

End HandlerRuns.

(** * The claims about the handlers *)

(** C10.  [handleCreateSession], whether the remote creation succeeds or
    fails, leaves the set cache, the display list and the four statistics
    fields as they were; its only remote call is [createWorkoutSession], so
    no sets are loaded for the new session. *)
Theorem C10_createSession_frame (env : Env) (s : State) :
  let r := run (handleCreateSession env) s in
  allLoggedSets (fst r) = allLoggedSets s
  /\ loggedSets (fst r) = loggedSets s
  /\ totalSets (fst r) = totalSets s
  /\ uniqueExercises (fst r) = uniqueExercises s
  /\ totalReps (fst r) = totalReps s
  /\ maxWeight (fst r) = maxWeight s
  /\ calls (snd r) = [createWorkoutSession].
Proof.
  intros r; subst r. rewrite handleCreateSession_run; simpl.
  destruct (respond env [] createWorkoutSession); simpl; repeat split.
Qed.

(** C9.  Every handler that sets [isLoading] ends with the flag cleared,
    whatever the remote calls answer: [initializeLogger],
    [loadWorkoutSets] (awaited or started by the refresh button),
    [handleCreateSession], [handleAddSet] once the form is valid and
    [handleEndSession] once the user has confirmed.  The two early returns
    happen before the flag is touched and leave it as it was. *)
Theorem C9_isLoading_cleared (env : Env) (s : State) :
  isLoading (fst (run (initializeLogger env) s)) = false
  /\ isLoading (fst (run (loadWorkoutSets env) s)) = false
  /\ isLoading (fst (run (handleRefreshTable env) s)) = false
  /\ isLoading (fst (run (handleCreateSession env) s)) = false
  /\ isLoading (fst (run (handleAddSet env) s))
     = (if form_valid env then false else isLoading s)
  /\ isLoading (fst (run (handleEndSession env) s))
     = (if confirm env end_prompt then false else isLoading s).
Proof.
  repeat split.
  - rewrite initializeLogger_run; simpl.
    destruct (respond env [] getTodaySession) as [[session|]|e];
      simpl; [| |reflexivity].
    + rewrite loadWorkoutSets_run; simpl.
      destruct (respond env _ (getWorkoutSets _)); simpl;
        rewrite loadMuscleGroups_run; simpl;
        destruct (respond env _ getMuscleGroups); reflexivity.
    + rewrite loadMuscleGroups_run; simpl.
      destruct (respond env _ getMuscleGroups); reflexivity.
  - unfold run. rewrite loadWorkoutSets_run; simpl.
    destruct (respond env _ (getWorkoutSets _)); reflexivity.
  - rewrite handleRefreshTable_run; simpl.
    destruct (respond env _ (getWorkoutSets _)); reflexivity.
  - rewrite handleCreateSession_run; simpl.
    destruct (respond env [] createWorkoutSession); reflexivity.
  - rewrite handleAddSet_run.
    destruct (form_valid env); simpl; [|reflexivity].
    destruct (respond env [] (createWorkoutSet _)); simpl; [|reflexivity].
    destruct (respond env _ (getWorkoutSets _)); reflexivity.
  - rewrite handleEndSession_run.
    destruct (confirm env end_prompt); simpl; [|reflexivity].
    destruct (respond env [] (endWorkoutSession _)); reflexivity.
Qed.

(** C4.  In [handleEndSession]: when the user declines, no remote call is
    made and the whole state is unchanged.  When the user accepts, the one
    remote call is [endWorkoutSession] for the current session id, and
    while it is pending the session id, date, existence flag and both set
    lists are still those of the start.  When the call succeeds they are
    cleared and success is announced; when it fails the error toast is
    shown and the state is the one of the start with the loading flag
    cleared. *)
Theorem C4_endSession_flow (env : Env) (s : State) :
  let r := run (handleEndSession env) s in
  if confirm env end_prompt then
    calls (snd r) = [endWorkoutSession (sessionId s)]
    /\ pending_states (snd r) = [set_isLoading true s]
    /\ session_part (set_isLoading true s) = session_part s
    /\ match respond env [] (endWorkoutSession (sessionId s)) with
       | Resolved _ =>
           session_part (fst r) = (None, false, "", [], [])
           /\ fst r = set_isLoading false (drop_session s)
           /\ toasts (snd r) = [end_success]
       | Rejected _ =>
           session_part (fst r) = session_part s
           /\ fst r = set_isLoading false s
           /\ toasts (snd r) = [end_error]
       end
  else fst r = s /\ calls (snd r) = [] /\ toasts (snd r) = [].
Proof.
  intros r; subst r. rewrite handleEndSession_run.
  destruct (confirm env end_prompt); simpl; [|repeat split].
  destruct (respond env [] (endWorkoutSession (sessionId s)));
    simpl; repeat split.
Qed.

(** C8.  [handleMuscleGroupChange] stores the chosen group and clears the
    selected exercise.  Exercises are fetched only when a group is chosen
    (a non-empty value), with exactly one call, and while that call is
    pending the selected exercise and the option list are already cleared.
    A resolved fetch fills the option list; a rejected one leaves it
    empty, shows no toast and is not repeated.  Without a chosen group no
    call is made and the option list is empty. *)
Theorem C8_muscleGroupChange (env : Env) (value : option string) (s : State) :
  let r := run (handleMuscleGroupChange env value) s in
  selectedMuscleGroup (fst r) = value
  /\ selectedExerciseId (fst r) = None
  /\ match chosen_group value with
     | Some group =>
         calls (snd r) = [getExercisesByMuscleGroup group]
         /\ map selectedExerciseId (pending_states (snd r)) = [None]
         /\ map exerciseOptions (pending_states (snd r)) = [[]]
         /\ match respond env [] (getExercisesByMuscleGroup group) with
            | Resolved exercises =>
                exerciseOptions (fst r) = exercise_options exercises
            | Rejected _ =>
                exerciseOptions (fst r) = [] /\ toasts (snd r) = []
            end
     | None => calls (snd r) = [] /\ exerciseOptions (fst r) = []
     end.
Proof.
  intros r; subst r. rewrite handleMuscleGroupChange_run; simpl.
  destruct (chosen_group value) as [group|]; simpl; [|repeat split].
  destruct (respond env [] (getExercisesByMuscleGroup group));
    simpl; repeat split.
Qed.

(** Simplifies the projections of a trace. *)
Ltac simpl_trace :=
  simpl;
  rewrite ?calls_app, ?pending_states_app, ?toasts_app,
    ?calls_clear_events, ?calls_validate_events, ?pending_clear_events,
    ?toasts_clear_events, ?toasts_validate_events;
  simpl.

(** C5 (as stated, refuted).  When fetching today's session fails, the
    only remote call of [initializeLogger] is [getTodaySession]: the muscle
    groups are not loaded.  And when the session is found but the later
    calls fail, the toast is the one of the set loader, not the
    initialization error, and the component does hold a session. *)
Lemma C5_initialize_counterexample :
  let down := run (initializeLogger Sample.env_down) initial_state in
  let flaky := run (initializeLogger Sample.env_flaky) initial_state in
  calls (snd down) = [getTodaySession]
  /\ muscleGroupOptions (fst down) = []
  /\ calls (snd flaky)
     = [getTodaySession; getWorkoutSets (Some "a0S1"); getMuscleGroups]
  /\ toasts (snd flaky) = [load_error]
  /\ sessionExists (fst flaky) = true.
Proof. vm_compute. repeat split. Qed.

(** C5 (amended).  [initializeLogger] first fetches today's session.
    - If that fetch fails, it shows the initialization error, makes no
      other remote call (the muscle groups are not loaded) and leaves the
      state as it was, with the loading flag cleared.
    - If the fetch finds no session, the session fields and the set lists
      stay as they were, no set-loading call is made, and the muscle
      groups are loaded.
    - If it finds a session, the id, date and existence flag are adopted,
      the sets of that session are loaded, and the muscle groups are
      loaded.
    A failure of the set load shows the load error only, and a failure of
    the muscle-group load shows no toast and leaves the options as they
    were; neither shows the initialization error. *)
Theorem C5_initializeLogger_spec (env : Env) (s : State) :
  let r := run (initializeLogger env) s in
  match respond env [] getTodaySession with
  | Rejected _ =>
      calls (snd r) = [getTodaySession]
      /\ toasts (snd r) = [init_error]
      /\ fst r = set_isLoading false s
  | Resolved None =>
      calls (snd r) = [getTodaySession; getMuscleGroups]
      /\ toasts (snd r) = []
      /\ session_part (fst r) = session_part s
      /\ muscleGroupOptions (fst r)
         = match respond env [getTodaySession] getMuscleGroups with
           | Resolved groups => group_options groups
           | Rejected _ => muscleGroupOptions s
           end
  | Resolved (Some session) =>
      let fetch := getWorkoutSets (Some (session_Id session)) in
      calls (snd r) = [getTodaySession; fetch; getMuscleGroups]
      /\ sessionId (fst r) = Some (session_Id session)
      /\ sessionExists (fst r) = true
      /\ sessionDate (fst r) = formatDate env (Session_Date__c session)
      /\ toasts (snd r)
         = match respond env [getTodaySession] fetch with
           | Resolved _ => []
           | Rejected _ => [load_error]
           end
      /\ allLoggedSets (fst r)
         = match respond env [getTodaySession] fetch with
           | Resolved sets => sets
           | Rejected _ => allLoggedSets s
           end
      /\ muscleGroupOptions (fst r)
         = match respond env [getTodaySession; fetch] getMuscleGroups with
           | Resolved groups => group_options groups
           | Rejected _ => muscleGroupOptions s
           end
  end.
Proof.
  intros r; subst r. rewrite initializeLogger_run; simpl.
  destruct (respond env [] getTodaySession) as [[session|]|e];
    simpl; [| |repeat split].
  - rewrite loadWorkoutSets_run; simpl.
    destruct (respond env [getTodaySession]
                (getWorkoutSets (Some (session_Id session)))); simpl;
      rewrite loadMuscleGroups_run; simpl_trace;
      destruct (respond env _ getMuscleGroups); simpl; repeat split.
  - rewrite loadMuscleGroups_run; simpl.
    destruct (respond env [getTodaySession] getMuscleGroups);
      simpl; repeat split.
Qed.

(** C7.  [handleAddSet] with an invalid form makes no remote call and
    leaves the state as it was.  With a valid form it submits the creation
    request.  If the creation succeeds, the form's reps, weight, RPE and
    notes are cleared, and only then the full list of the session is
    fetched again: the fetched list replaces both the cache and the
    display list and the statistics are those of the fetched list (a failed
    fetch shows the load error and keeps the lists and statistics).  If the
    creation fails, the error toast is shown, nothing is fetched and the
    form keeps what the user typed. *)
Theorem C7_addSet_flow (env : Env) (s : State) :
  let r := run (handleAddSet env) s in
  if form_valid env then
    let request := createWorkoutSet (set_request s) in
    match respond env [] request with
    | Resolved _ =>
        let fetch := getWorkoutSets (sessionId s) in
        calls (snd r) = [request; fetch]
        /\ map form_part (pending_states (snd r))
           = [form_part s; (None, None, None, None)]
        /\ form_part (fst r) = (None, None, None, None)
        /\ match respond env [request] fetch with
           | Resolved sets =>
               allLoggedSets (fst r) = sets
               /\ loggedSets (fst r) = sets
               /\ statistics (fst r)
                  = statistics (calculateStatistics (loaded sets s))
               /\ toasts (snd r) = [add_success]
           | Rejected _ =>
               allLoggedSets (fst r) = allLoggedSets s
               /\ loggedSets (fst r) = loggedSets s
               /\ statistics (fst r) = statistics s
               /\ toasts (snd r) = [load_error; add_success]
           end
    | Rejected _ =>
        calls (snd r) = [request]
        /\ toasts (snd r) = [add_error]
        /\ form_part (fst r) = form_part s
        /\ fst r = set_isLoading false s
    end
  else fst r = s /\ calls (snd r) = [].
Proof.
  intros r; subst r. rewrite handleAddSet_run.
  destruct (form_valid env); simpl;
    [|split; [reflexivity | apply calls_validate_events]].
  destruct (respond env [] (createWorkoutSet (set_request s)));
    simpl; [|repeat split].
  destruct (respond env [createWorkoutSet (set_request s)]
              (getWorkoutSets (sessionId s))); simpl_trace; repeat split.
Qed.

(** C1 (as stated, refuted).  The freshly constructed component is a
    reachable state without a session id; with a valid form,
    [handleAddSet] issues a set-creation request from it, and the request
    carries no session id. *)
Lemma C1_create_without_session_counterexample :
  let r := run (handleAddSet Sample.env_up) initial_state in
  reachable initial_state
  /\ sessionId initial_state = None
  /\ existsb creates_without_session (calls (snd r)) = true.
Proof. split; [constructor | vm_compute; split; reflexivity]. Qed.

Section Creations.

Variable env : Env.

Lemma creations_initializeLogger s :
  creations (snd (run (initializeLogger env) s)) = [].
Proof.
  unfold creations. rewrite initializeLogger_run; simpl.
  destruct (respond env [] getTodaySession) as [[session|]|e];
    simpl; [| |reflexivity].
  - rewrite loadWorkoutSets_run; simpl.
    destruct (respond env _ (getWorkoutSets _)); simpl;
      rewrite loadMuscleGroups_run; simpl;
      destruct (respond env _ getMuscleGroups); reflexivity.
  - rewrite loadMuscleGroups_run; simpl.
    destruct (respond env _ getMuscleGroups); reflexivity.
Qed.

Lemma creations_handleAddSet s :
  creations (snd (run (handleAddSet env) s))
  = if form_valid env then [createWorkoutSet (set_request s)] else [].
Proof.
  unfold creations. rewrite handleAddSet_run.
  destruct (form_valid env); simpl;
    [|now rewrite calls_validate_events].
  destruct (respond env [] (createWorkoutSet _)); simpl; [|reflexivity].
  destruct (respond env _ (getWorkoutSets _)); simpl_trace; reflexivity.
Qed.

End Creations.

(** C1 (amended).  Among all handlers only [handleAddSet] issues a
    set-creation request; it issues exactly one when form validation
    passes and none otherwise, and the request carries whatever session id
    the component holds at that moment, present or not.  The component
    itself does not check that a session id is present. *)
Theorem C1_creation_calls (env : Env) (a : Action) (s : State) :
  creations (snd (run (handler env a) s))
  = (if is_AddSet a && form_valid env
     then [createWorkoutSet (set_request s)] else [])
  /\ req_sessionId (set_request s) = sessionId s.
Proof.
  split; [|reflexivity].
  destruct a; simpl; try reflexivity.
  - apply creations_initializeLogger.
  - unfold creations. rewrite handleMuscleGroupChange_run; simpl.
    destruct (chosen_group value); simpl; [|reflexivity].
    destruct (respond env [] (getExercisesByMuscleGroup _)); reflexivity.
  - unfold creations. rewrite handleCreateSession_run; simpl.
    destruct (respond env [] createWorkoutSession); reflexivity.
  - apply creations_handleAddSet.
  - unfold creations, run. rewrite handleClearForm_run; simpl.
    now rewrite calls_clear_events.
  - unfold creations. rewrite handleEndSession_run.
    destruct (confirm env end_prompt); simpl; [|reflexivity].
    destruct (respond env [] (endWorkoutSession _)); reflexivity.
  - unfold creations. rewrite handleRefreshTable_run; simpl.
    destruct (respond env [] (getWorkoutSets _)); reflexivity.
Qed.

(** * Statistics and the loaded list *)

Section StatisticsInvariant.

Variable env : Env.

(** The statistics only read the loaded list. *)
Lemma statistics_frame s s' :
  allLoggedSets s' = allLoggedSets s ->
  statistics s' = statistics s ->
  statistics s = statistics (calculateStatistics s) ->
  statistics s' = statistics (calculateStatistics s').
Proof.
  intros Hl Hs Hc. rewrite Hs, Hc.
  unfold statistics, calculateStatistics; simpl. now rewrite Hl.
Qed.

(** Every handler but [handleEndSession] keeps the statistics equal to
    those of the loaded list. *)
Lemma statistics_follow_the_list a s :
  is_EndSession a = false ->
  statistics s = statistics (calculateStatistics s) ->
  let s' := fst (run (handler env a) s) in
  statistics s' = statistics (calculateStatistics s').
Proof.
  intros Ha Hc s'; subst s'.
  destruct a; simpl in *; try discriminate;
    try (apply (statistics_frame s); [reflexivity | reflexivity | exact Hc]).
  - unfold connectedCallback. rewrite initializeLogger_run; simpl.
    destruct (respond env [] getTodaySession) as [[session|]|e]; simpl.
    + rewrite loadWorkoutSets_run; simpl.
      destruct (respond env _ (getWorkoutSets _)); simpl;
        rewrite loadMuscleGroups_run; simpl;
        destruct (respond env _ getMuscleGroups); simpl;
        first [reflexivity | exact Hc].
    + rewrite loadMuscleGroups_run; simpl.
      destruct (respond env _ getMuscleGroups); exact Hc.
    + exact Hc.
  - rewrite handleMuscleGroupChange_run; simpl.
    destruct (chosen_group value); simpl; [|exact Hc].
    destruct (respond env [] (getExercisesByMuscleGroup _)); exact Hc.
  - rewrite handleCreateSession_run; simpl.
    destruct (respond env [] createWorkoutSession); exact Hc.
  - rewrite handleAddSet_run.
    destruct (form_valid env); simpl; [|exact Hc].
    destruct (respond env [] (createWorkoutSet _)); simpl; [|exact Hc].
    destruct (respond env _ (getWorkoutSets _)); simpl;
      first [reflexivity | exact Hc].
  - unfold run. rewrite handleClearForm_run; simpl. exact Hc.
  - rewrite handleRefreshTable_run; simpl.
    destruct (respond env [] (getWorkoutSets _)); simpl;
      first [reflexivity | exact Hc].
Qed.

End StatisticsInvariant.

(** C2 (the code departs from the claim).  A component that holds a
    session with two loaded sets has its statistics equal to those of the
    loaded list.  After [handleEndSession] is confirmed and succeeds, the
    loaded list is empty while the four statistics fields still hold the
    values of the ended session, [(2, 2, 15, 60)], instead of the
    statistics [(0, 0, 0, 0)] of the empty list: [handleEndSession] clears
    the list without calling [calculateStatistics], which
    [loadWorkoutSets] does after it replaces the list. *)
Theorem C2_statistics_stale_after_end :
  let s := Sample.in_session in
  let s' := fst (run (handleEndSession Sample.env_up) s) in
  statistics s = statistics (calculateStatistics s)
  /\ allLoggedSets s' = []
  /\ statistics s' = (2, 2, 15, 60)
  /\ statistics (calculateStatistics s') = (0, 0, 0, 0).
Proof. vm_compute. repeat split. Qed.

(** * Sample runs *)

Example declined_end_keeps_state :
  run (handleEndSession Sample.env_declined) Sample.in_session
  = (Sample.in_session, [Confirm end_prompt false]).
Proof. reflexivity. Qed.

Example invalid_form_blocks_add :
  run (handleAddSet Sample.env_invalid) Sample.in_session
  = (Sample.in_session, [ReportValidity 2]).
Proof. reflexivity. Qed.

Example fresh_initialize_loads_groups_only :
  calls (snd (run (initializeLogger Sample.env_fresh) initial_state))
  = [getTodaySession; getMuscleGroups].
Proof. reflexivity. Qed.

Example add_set_reloads_and_counts :
  let r := run (handleAddSet Sample.env_up) Sample.in_session in
  calls (snd r)
  = [createWorkoutSet (set_request Sample.in_session);
     getWorkoutSets (Some "a0S1")]
  /\ statistics (fst r) = (2, 2, 15, 60).
Proof. vm_compute. split; reflexivity. Qed.

(** * Further properties of the sort *)

Section SortedInput.

Context {A : Type} (compareFn : A -> A -> Z).

(** Sorting a list that is already in order returns it. *)
Lemma Array_sort_sorted l :
  StronglySorted (fun a b => compareFn a b <= 0) l ->
  Array_sort compareFn l = l.
Proof.
  induction 1 as [|x l Hl IH Hx]; simpl; [reflexivity|].
  rewrite IH. destruct Hx as [|y l' Hxy _]; simpl; [reflexivity|].
  destruct (Z.leb_spec (compareFn x y) 0); [reflexivity | lia].
Qed.

Lemma StronglySorted_reverse (R : A -> A -> Prop) l :
  StronglySorted R l -> StronglySorted (fun a b => R b a) (reverse l).
Proof.
  induction 1 as [|x l Hl IH Hx]; [constructor|].
  rewrite reverse_cons. apply StronglySorted_app_2.
  - intros x1 x2 H1 H2. apply list_elem_of_singleton in H2 as ->.
    rewrite elem_of_reverse in H1.
    rewrite Forall_forall in Hx. now apply Hx.
  - exact IH.
  - repeat constructor.
Qed.

Lemma StronglySorted_weaken (R1 R2 : A -> A -> Prop) l :
  (forall a b, R1 a b -> R2 a b) ->
  StronglySorted R1 l -> StronglySorted R2 l.
Proof.
  intros H; induction 1 as [|x l Hl IH Hx]; constructor; [exact IH|].
  eapply Forall_impl; [exact Hx|]. intros y; apply H.
Qed.

End SortedInput.

Lemma handleSortData_run env fieldName sortDirection s :
  run (handler env (SortData fieldName sortDirection)) s
  = (sortData fieldName sortDirection
       (set_sortedDirection sortDirection (set_sortedBy fieldName s)), []).
Proof. reflexivity. Qed.

Lemma sortData_sorted f d s :
  StronglySorted (in_order f d) (loggedSets (sortData f d s)).
Proof.
  unfold sortData; simpl.
  apply (Array_sort_StronglySorted (compareSets f d)).
  - intros a b; apply compareSets_opp.
  - intros a b c; apply in_order_trans.
Qed.

Lemma compareSets_desc f a b :
  compareSets f "desc" a b = compareSets f "asc" b a.
Proof.
  rewrite (compareSets_opp f "asc" a b), !compareSets_three_way. simpl. lia.
Qed.

Lemma get_field_unknown f a : known_field f = false -> get_field f a = VUndef.
Proof.
  unfold known_field, get_field. intros H.
  repeat (apply orb_false_iff in H as [H ?]).
  now repeat match goal with E : String.eqb _ _ = false |- _ => rewrite E; clear E end.
Qed.

(** X8.  Sorting the display list twice by the same column and direction gives
    the same component state as sorting it once. *)
Theorem sort_twice_is_sort_once env (fieldName sortDirection : string) s :
  let once := fst (run (handler env (SortData fieldName sortDirection)) s) in
  fst (run (handler env (SortData fieldName sortDirection)) once) = once.
Proof.
  intros once; subst once. rewrite !handleSortData_run; simpl.
  unfold sortData; simpl.
  rewrite (Array_sort_sorted (compareSets fieldName sortDirection)
             (Array_sort _ _)); [reflexivity|].
  apply (sortData_sorted fieldName sortDirection s).
Qed.

(** X10.  Sorting by a name that is no property of the set records leaves the
    display list as it is, in both directions: every value is missing, so
    the comparator ties everywhere and the stable sort moves nothing.  The
    name and direction are still recorded. *)
Theorem sort_by_unknown_field env (fieldName sortDirection : string) s :
  known_field fieldName = false ->
  let s' := fst (run (handler env (SortData fieldName sortDirection)) s) in
  loggedSets s' = loggedSets s
  /\ sortedBy s' = fieldName
  /\ sortedDirection s' = sortDirection.
Proof.
  intros Hf s'; subst s'. rewrite handleSortData_run; simpl.
  split; [|split; reflexivity].
  apply Array_sort_sorted.
  assert (Hz : forall a b, compareSets fieldName sortDirection a b = 0).
  { intros a b. rewrite compareSets_three_way. unfold coerced.
    rewrite !get_field_unknown by exact Hf.
    destruct (String.eqb sortDirection "desc"); reflexivity. }
  induction (loggedSets s) as [|x l IH]; constructor; [exact IH|].
  apply Forall_forall. intros y _. rewrite Hz. lia.
Qed.

Lemma sort_by_unknown_field_witness :
  known_field "CreatedDate" = false
  /\ loggedSets (fst (run (handler Sample.env_up (SortData "CreatedDate" "desc"))
                        Sample.in_session))
     = loggedSets Sample.in_session.
Proof.
  split; [reflexivity|].
  apply (sort_by_unknown_field Sample.env_up "CreatedDate" "desc"
           Sample.in_session). reflexivity.
Defined.

(** X11.  When no two different records of the display list tie on the column,
    sorting descending gives the reverse of sorting ascending. *)
Theorem descending_is_reverse_of_ascending env (fieldName : string) s :
  tie_free fieldName (loggedSets s) ->
  sorted_display env fieldName "desc" s
  = reverse (sorted_display env fieldName "asc" s).
Proof.
  intros Hfree. unfold sorted_display. rewrite !handleSortData_run; simpl.
  assert (Hin : forall d x,
             x ∈ Array_sort (compareSets fieldName d) (loggedSets s) ->
             x ∈ loggedSets s).
  { intros d x. now rewrite Array_sort_Permutation. }
  apply (StronglySorted_unique_strong (in_order fieldName "desc")).
  - intros x1 x2 H1 H2 R12 R21.
    apply Hin in H1. rewrite elem_of_reverse in H2. apply Hin in H2.
    apply Hfree; [exact H1 | exact H2|].
    unfold in_order in *. rewrite compareSets_desc in R12, R21.
    rewrite (compareSets_opp fieldName "asc" x1 x2) in R12. lia.
  - apply (sortData_sorted fieldName "desc" s).
  - pose proof (sortData_sorted fieldName "asc" s) as Hs.
    apply StronglySorted_reverse in Hs.
    eapply StronglySorted_weaken; [|exact Hs].
    intros a b H. unfold in_order in *. now rewrite compareSets_desc.
  - rewrite reverse_Permutation, !Array_sort_Permutation. reflexivity.
Qed.

Lemma counts_tie_free :
  tie_free "SetCount" (loggedSets (displaying [3; 1; 2] initial_state)).
Proof.
  intros a b Ha Hb. apply list_elem_of_In in Ha, Hb. simpl in Ha, Hb.
  destruct Ha as [<-|[<-|[<-|[]]]]; destruct Hb as [<-|[<-|[<-|[]]]];
    vm_compute; congruence.
Qed.

Lemma descending_is_reverse_of_ascending_witness :
  sorted_display Sample.env_up "SetCount" "desc"
    (displaying [3; 1; 2] initial_state)
  = reverse (sorted_display Sample.env_up "SetCount" "asc"
               (displaying [3; 1; 2] initial_state)).
Proof.
  apply (descending_is_reverse_of_ascending Sample.env_up "SetCount"
           (displaying [3; 1; 2] initial_state)).
  exact counts_tie_free.
Defined.

(** * The form: validation and clearing *)

Lemma elem_of_combine_seq {A} (l : list A) n i (x : A) :
  (i, x) ∈ combine (seq n (length l)) l
  <-> (n <= i)%nat /\ l !! (i - n)%nat = Some x.
Proof.
  revert n; induction l as [|y l IH]; intros n; simpl.
  - rewrite elem_of_nil. split; [tauto | intros [_ H]; discriminate].
  - rewrite elem_of_cons, IH. split.
    + intros [E|[Hn Hl]].
      * inversion E; subst. split; [lia|]. now rewrite Nat.sub_diag.
      * split; [lia|].
        replace (i - n)%nat with (S (i - S n)) by lia. exact Hl.
    + intros [Hn Hl]. destruct (decide (i = n)) as [->|Hne].
      * rewrite Nat.sub_diag in Hl. simpl in Hl. left; congruence.
      * right. split; [lia|].
        replace (i - n)%nat with (S (i - S n)) in Hl by lia. exact Hl.
Qed.

Lemma elem_of_indexed {A} (l : list A) i (x : A) :
  (i, x) ∈ indexed l <-> l !! i = Some x.
Proof.
  unfold indexed. rewrite elem_of_combine_seq, Nat.sub_0_r.
  split; [tauto | intros H; split; [lia | exact H]].
Qed.

Lemma validate_events_missing env :
  validate_events env = map ReportValidity (missing_elements env).
Proof.
  unfold validate_events, missing_elements.
  induction (indexed (template env)) as [|x l IH]; simpl; [reflexivity|].
  rewrite filter_cons, IH.
  destruct (missing_required (snd x)); reflexivity.
Qed.

Lemma clear_events_touched env :
  touched_elements (clear_events env)
  = flat_map (fun i => [i; i]) (input_positions env).
Proof.
  unfold clear_events, input_positions.
  induction (filter is_input (indexed (template env))) as [|x l IH];
    simpl; [reflexivity|].
  unfold touched_elements in *. simpl. now rewrite IH.
Qed.

(** X3.  [validateForm] returns [true] exactly when no element of the template
    is required and empty; an empty template is valid.  It calls
    [reportValidity] on the required empty elements, in document order, and
    on no other; it changes no field and throws nothing. *)
Theorem validateForm_reports_missing (env : Env) (s : State) (tr : Trace) :
  validateForm env s tr
  = (Normal (form_valid env), s,
     tr ++ map ReportValidity (missing_elements env))
  /\ (form_valid env = true <->
      forall input, input ∈ template env -> missing_required input = false)
  /\ (form_valid env = true <-> missing_elements env = [])
  /\ (forall i, i ∈ missing_elements env <->
        exists input, template env !! i = Some input
                      /\ missing_required input = true)
  /\ (template env = [] -> form_valid env = true).
Proof.
  assert (Hmem : forall i, i ∈ missing_elements env <->
            exists input, template env !! i = Some input
                          /\ missing_required input = true).
  { intros i. unfold missing_elements.
    rewrite list_elem_of_In, in_map_iff. split.
    - intros ([j input] & E & H). simpl in E; subst j.
      apply list_elem_of_In, list_elem_of_filter in H as [Hm Hin].
      apply elem_of_indexed in Hin. exists input. split; [exact Hin|].
      simpl in Hm. now destruct (missing_required input).
    - intros (input & Hin & Hm). exists (i, input). split; [reflexivity|].
      apply list_elem_of_In, list_elem_of_filter.
      split; [simpl; now rewrite Hm|].
      now apply elem_of_indexed. }
  assert (Hall : form_valid env = true <->
            forall input, input ∈ template env ->
                          missing_required input = false).
  { unfold form_valid. rewrite forallb_forall. split.
    - intros H input Hin. apply list_elem_of_In, H in Hin.
      now apply negb_true_iff in Hin.
    - intros H input Hin. apply negb_true_iff, H. now apply list_elem_of_In. }
  split; [rewrite validateForm_run, validate_events_missing; reflexivity|].
  split; [exact Hall|].
  split.
  { rewrite Hall. split.
    - intros H. destruct (missing_elements env) as [|i l] eqn:E;
        [reflexivity|].
      assert (Hi : i ∈ i :: l) by constructor.
      apply Hmem in Hi as (input & Hin & Hm).
      apply list_elem_of_lookup_2, H in Hin. congruence.
    - intros E input Hin.
      destruct (missing_required input) eqn:Hm; [|reflexivity].
      apply list_elem_of_lookup in Hin as [i Hi].
      assert (Hmiss : i ∈ missing_elements env) by (apply Hmem; eauto).
      rewrite E in Hmiss. now apply not_elem_of_nil in Hmiss. }
  split; [exact Hmem|].
  intros E. unfold form_valid. now rewrite E.
Qed.

(** X4.  [handleClearForm] empties reps, weight, RPE and notes and changes no
    other field: the muscle group, the exercise, the unit, the session and
    the sets stay.  It makes no remote call and shows no toast.  It resets
    and reports the validity of every [lightning-input] of the template,
    each once and in document order, and touches no combobox. *)
Theorem handleClearForm_effect (env : Env) (s : State) :
  let r := run (handleClearForm env) s in
  form_part (fst r) = (None, None, None, None)
  /\ with_form_of s (fst r) = s
  /\ calls (snd r) = []
  /\ toasts (snd r) = []
  /\ touched_elements (snd r)
     = flat_map (fun i => [i; i]) (input_positions env)
  /\ (forall i, i ∈ input_positions env <->
        exists input, template env !! i = Some input
                      /\ in_tag input = LightningInput).
Proof.
  intros r; subst r. unfold run. rewrite handleClearForm_run; simpl.
  split; [reflexivity|].
  split; [destruct s; reflexivity|].
  split; [apply calls_clear_events|].
  split; [apply toasts_clear_events|].
  split; [apply clear_events_touched|].
  intros i. unfold input_positions.
  rewrite list_elem_of_In, in_map_iff. split.
  - intros ([j input] & E & H). simpl in E; subst j.
    apply list_elem_of_In, list_elem_of_filter in H as [Hm Hin].
    apply elem_of_indexed in Hin. exists input. split; [exact Hin|].
    unfold is_input in Hm; simpl in Hm. now destruct (in_tag input).
  - intros (input & Hin & Hm). exists (i, input). split; [reflexivity|].
    apply list_elem_of_In, list_elem_of_filter.
    split; [unfold is_input; simpl; now rewrite Hm|].
    now apply elem_of_indexed.
Qed.

(** X5.  The refresh button ends in the same state and makes the same remote
    call as an awaited [loadWorkoutSets]; its info toast is shown while the
    fetch is pending, so it comes first and also appears when the fetch
    fails. *)
Theorem handleRefreshTable_is_load (env : Env) (s : State) :
  let refresh := run (handleRefreshTable env) s in
  let load := run (loadWorkoutSets env) s in
  fst refresh = fst load
  /\ calls (snd refresh) = calls (snd load)
  /\ toasts (snd refresh) = refresh_info :: toasts (snd load).
Proof.
  intros refresh load; subst refresh load.
  rewrite handleRefreshTable_run. unfold run at 1 2 3.
  rewrite loadWorkoutSets_run; simpl.
  destruct (respond env [] (getWorkoutSets (sessionId s)));
    simpl; norm_state; repeat split.
Qed.

(** X6.  Toggling the table twice restores the state; one toggle changes the
    visibility flag only and switches the button title between
    "Collapse" (table shown) and "Expand" (table hidden). *)
Theorem toggleTableVisibility_round_trip (s : State) :
  toggleTableVisibility (toggleTableVisibility s) = s
  /\ set_tableVisible (tableVisible s) (toggleTableVisibility s) = s
  /\ toggleTableTitle s = (if tableVisible s then "Collapse" else "Expand")
  /\ toggleTableTitle (toggleTableVisibility s)
     = (if tableVisible s then "Expand" else "Collapse").
Proof.
  destruct s as [? ? ? ? ? ? ? ? ? ? ? ? ? ? ? visible ? ? ? ? ? ?].
  unfold toggleTableVisibility, toggleTableTitle; simpl.
  destruct visible; repeat split.
Qed.

(** X7.  The unit abbreviation is the unit itself for each of the three
    configured unit options and the empty string for any other unit; after
    the user picks an option it is that option's label. *)
Theorem unitAbbreviation_of_options (env : Env) (s : State) :
  (unitAbbreviation s
   = if bool_decide (unit s ∈ map opt_value unitOptions)
     then unit s else "")
  /\ forall o, o ∈ unitOptions ->
       unitAbbreviation (fst (run (handler env (UnitChange (opt_value o))) s))
       = opt_label o.
Proof.
  split.
  - unfold unitAbbreviation.
    destruct (String.eqb_spec (unit s) "kg") as [->|H1]; [reflexivity|].
    destruct (String.eqb_spec (unit s) "lbs") as [->|H2]; [reflexivity|].
    destruct (String.eqb_spec (unit s) "plates") as [->|H3]; [reflexivity|].
    rewrite bool_decide_eq_false_2; [reflexivity|].
    simpl. rewrite !elem_of_cons, elem_of_nil. tauto.
  - intros o Ho. unfold unitOptions in Ho.
    rewrite !elem_of_cons, elem_of_nil in Ho.
    destruct Ho as [->|[->|[->|[]]]]; reflexivity.
Qed.

Lemma unitAbbreviation_of_options_witness :
  mkOption "lbs" "lbs" ∈ unitOptions
  /\ unitAbbreviation
       (fst (run (handler Sample.env_up (UnitChange "lbs")) initial_state))
     = "lbs".
Proof.
  assert (H : mkOption "lbs" "lbs" ∈ unitOptions)
    by (right; left).
  split; [exact H|].
  exact (proj2 (unitAbbreviation_of_options Sample.env_up initial_state)
           (mkOption "lbs" "lbs") H).
Defined.

(** * Sessions and set loading *)

(** X1.  [handleCreateSession]: when the creation succeeds, the component holds
    the id of the created record, the existence flag is set, the date is
    the formatted session date and the success toast is shown; when it
    fails, the error toast is shown and only the loading flag may differ
    from the start.  The loading flag is set while the call is pending. *)
Theorem handleCreateSession_outcome (env : Env) (s : State) :
  let r := run (handleCreateSession env) s in
  map isLoading (pending_states (snd r)) = [true]
  /\ match respond env [] createWorkoutSession with
     | Resolved session =>
         sessionId (fst r) = Some (session_Id session)
         /\ sessionExists (fst r) = true
         /\ sessionDate (fst r) = formatDate env (Session_Date__c session)
         /\ fst r = set_isLoading false (adopt_session env session s)
         /\ toasts (snd r) = [create_success]
     | Rejected _ =>
         fst r = set_isLoading false s
         /\ toasts (snd r) = [create_error]
     end.
Proof.
  intros r; subst r. rewrite handleCreateSession_run; simpl.
  destruct (respond env [] createWorkoutSession); simpl; repeat split.
Qed.

(** X2.  [loadWorkoutSets] fetches the sets of the session id the component
    holds, with the loading flag set while the fetch is pending.  A
    resolved fetch replaces the cache and the display list by the fetched
    list, in the order received, and sets the statistics to those of that
    list; a rejected fetch shows the load error and keeps lists and
    statistics.  The sort column and direction are never changed. *)
Theorem loadWorkoutSets_outcome (env : Env) (s : State) :
  let r := run (loadWorkoutSets env) s in
  calls (snd r) = [getWorkoutSets (sessionId s)]
  /\ map isLoading (pending_states (snd r)) = [true]
  /\ sortedBy (fst r) = sortedBy s
  /\ sortedDirection (fst r) = sortedDirection s
  /\ match respond env [] (getWorkoutSets (sessionId s)) with
     | Resolved sets =>
         allLoggedSets (fst r) = sets
         /\ loggedSets (fst r) = sets
         /\ statistics (fst r)
            = statistics (calculateStatistics (loaded sets s))
         /\ fst r = set_isLoading false (store_sets sets s)
         /\ toasts (snd r) = []
     | Rejected _ =>
         fst r = set_isLoading false s
         /\ toasts (snd r) = [load_error]
     end.
Proof.
  intros r; subst r. unfold run. rewrite loadWorkoutSets_run; simpl.
  destruct (respond env [] (getWorkoutSets (sessionId s)));
    simpl; norm_state; repeat split.
Qed.

(** X9.  A reload discards the order the user sorted the table into: after
    sorting by a column and then loading successfully, the display list is
    the fetched list as received, while the recorded sort column and
    direction are still the user's. *)
Theorem reload_discards_sort_order (env env' : Env)
  (fieldName sortDirection : string) (s : State) :
  let sorted := fst (run (handler env (SortData fieldName sortDirection)) s) in
  let r := run (loadWorkoutSets env') sorted in
  sortedBy (fst r) = fieldName
  /\ sortedDirection (fst r) = sortDirection
  /\ loggedSets (fst r)
     = match respond env' [] (getWorkoutSets (sessionId s)) with
       | Resolved sets => sets
       | Rejected _ =>
           Array_sort (compareSets fieldName sortDirection) (loggedSets s)
       end.
Proof.
  intros sorted r; subst sorted r. rewrite handleSortData_run.
  unfold run. rewrite loadWorkoutSets_run; simpl.
  destruct (respond env' [] (getWorkoutSets (sessionId s)));
    simpl; repeat split.
Qed.

(** * Properties of all handlers *)

(** Walks through a handler: rewrites the sub-handlers by their run
    equations and splits on every answer of the collaborators. *)
Ltac settle env :=
  repeat
    (first
       [ rewrite loadWorkoutSets_run
       | rewrite loadMuscleGroups_run
       | rewrite handleClearForm_run
       | rewrite validateForm_run
       | match goal with
         | |- context [respond env ?h ?c] => destruct (respond env h c)
         | |- context [confirm env ?m] => destruct (confirm env m)
         | |- context [form_valid env] => destruct (form_valid env)
         end ];
     simpl).

(** X12.  No handler lets an error escape: whatever the collaborators answer,
    every handler ends normally, so a rejected remote call never becomes an
    unhandled rejection. *)
Theorem handlers_never_throw (env : Env) (a : Action) (s : State) :
  outcome (handler env a) s = Normal ().
Proof.
  unfold outcome.
  destruct a; simpl handler; try reflexivity.
  - unfold connectedCallback, initializeLogger. unfold_monad. simpl.
    destruct (respond env [] getTodaySession) as [[session|]|e]; simpl;
      settle env; reflexivity.
  - unfold handleMuscleGroupChange. unfold_monad. simpl.
    destruct value as [group|]; [|reflexivity].
    destruct (negb (String.eqb group "")); simpl; [|reflexivity].
    settle env; reflexivity.
  - unfold handleCreateSession. unfold_monad. simpl.
    settle env; reflexivity.
  - unfold handleAddSet, bind at 1. rewrite validateForm_run.
    destruct (form_valid env); simpl; [|reflexivity].
    unfold_monad. simpl.
    destruct (respond env _ (createWorkoutSet _)); simpl; [|reflexivity].
    rewrite handleClearForm_run, loadWorkoutSets_run; simpl.
    settle env; reflexivity.
  - rewrite handleClearForm_run. reflexivity.
  - unfold handleEndSession. unfold_monad. simpl.
    destruct (confirm env end_prompt); simpl; [|reflexivity].
    settle env; reflexivity.
  - unfold handleRefreshTable.
    rewrite (loadWorkoutSets_during_run env _
               [Toast "Info" "Refreshing workout data..." "info"])
      by reflexivity.
    simpl. settle env; reflexivity.
Qed.

(** X13.  During [initializeLogger] the loading flag is set while today's
    session and its sets are fetched.  When a session was found, the
    set loader has cleared the flag by the time the muscle groups are
    fetched; when none was found the flag is still set during that
    fetch. *)
Theorem initializeLogger_loading_flag (env : Env) (s : State) :
  let r := run (initializeLogger env) s in
  map isLoading (pending_states (snd r))
  = match respond env [] getTodaySession with
    | Resolved (Some _) => [true; true; false]
    | Resolved None => [true; true]
    | Rejected _ => [true]
    end.
Proof.
  intros r; subst r. rewrite initializeLogger_run; simpl.
  destruct (respond env [] getTodaySession) as [[session|]|e]; simpl;
    settle env; reflexivity.
Qed.

(** * Further properties of the statistics *)

Section StatisticsAlgebra.

Implicit Types sets : list WorkoutSet.

Let ids sets : gset ExerciseRef := list_to_set (map Exercise__c sets).

Lemma statistics_of_unfold sets :
  statistics_of sets
  = (Z.of_nat (length sets), Z.of_nat (size (ids sets)),
     Spec.total_reps sets,
     Math_max (map (fun set => or_zero (Weight_Kg set)) sets) 0).
Proof.
  unfold statistics_of, statistics, calculateStatistics; simpl.
  rewrite fold_left_reps. reflexivity.
Qed.

Lemma statistics_of_state sets s :
  statistics (calculateStatistics (loaded sets s)) = statistics_of sets.
Proof. reflexivity. Qed.

Lemma Math_max_app l1 l2 last :
  Math_max (l1 ++ l2) last = Z.max (Math_max l1 last) (Math_max l2 last).
Proof.
  unfold Math_max. induction l1 as [|x l1 IH]; simpl.
  - pose proof (Math_max_lower l2 last) as H. unfold Math_max in H. lia.
  - rewrite IH. lia.
Qed.

Lemma Math_max_Permutation l1 l2 last :
  l1 ≡ₚ l2 -> Math_max l1 last = Math_max l2 last.
Proof.
  unfold Math_max. induction 1; simpl; lia.
Qed.

Lemma total_reps_app sets1 sets2 :
  Spec.total_reps (sets1 ++ sets2)
  = Spec.total_reps sets1 + Spec.total_reps sets2.
Proof.
  unfold Spec.total_reps. induction sets1 as [|x l IH]; simpl; lia.
Qed.

Lemma total_reps_Permutation sets1 sets2 :
  sets1 ≡ₚ sets2 -> Spec.total_reps sets1 = Spec.total_reps sets2.
Proof.
  unfold Spec.total_reps. induction 1; simpl; lia.
Qed.

Lemma remove_dups_length_le (l : list ExerciseRef) :
  (length (remove_dups l) <= length l)%nat.
Proof.
  induction l as [|x l IH]; simpl; [lia|].
  destruct (decide_rel elem_of x l); simpl; lia.
Qed.

(** X21.  The statistics never count more exercises than sets; both counts are
    zero exactly for the empty list, and the maximum weight is never
    negative. *)
Theorem statistics_bounds sets (s : State) :
  let s' := calculateStatistics (loaded sets s) in
  0 <= uniqueExercises s' <= totalSets s'
  /\ (uniqueExercises s' = 0 <-> sets = [])
  /\ (totalSets s' = 0 <-> sets = [])
  /\ 0 <= maxWeight s'.
Proof.
  intros s'.
  assert (Ht : totalSets s' = Z.of_nat (length sets)) by reflexivity.
  assert (Hu : uniqueExercises s' = distinct_values sets)
    by apply uniqueExercises_values.
  assert (Hlen : (length (remove_dups (map Exercise__c sets))
                  <= length sets)%nat).
  { rewrite <- (length_map Exercise__c sets).
    apply remove_dups_length_le. }
  assert (Hnil : remove_dups (map Exercise__c sets) = [] <-> sets = []).
  { split; [|intros ->; reflexivity].
    intros E. destruct sets as [|x l]; [reflexivity|].
    assert (Hx : Exercise__c x ∈ remove_dups (map Exercise__c (x :: l)))
      by (apply elem_of_remove_dups; simpl; constructor).
    rewrite E in Hx. now apply not_elem_of_nil in Hx. }
  rewrite Hu, Ht. unfold distinct_values.
  split; [lia|]. split; [|split].
  - rewrite <- Hnil.
    destruct (remove_dups (map Exercise__c sets)); simpl; split;
      intros; try reflexivity; try discriminate; lia.
  - destruct sets; simpl; split; intros; try reflexivity;
      try discriminate; lia.
  - subst s'; unfold calculateStatistics; simpl. apply Math_max_lower.
Qed.

(** X22.  The statistics do not depend on the order of the sets: any
    rearrangement of the list, such as the sorted display list, has the
    same four statistics. *)
Theorem statistics_order_independent sets1 sets2 :
  sets1 ≡ₚ sets2 -> statistics_of sets1 = statistics_of sets2.
Proof.
  intros H. rewrite !statistics_of_unfold.
  rewrite (Permutation_length H), (total_reps_Permutation _ _ H).
  rewrite (Math_max_Permutation
             (map (fun set => or_zero (Weight_Kg set)) sets1)
             (map (fun set => or_zero (Weight_Kg set)) sets2))
    by (now apply Permutation_map).
  unfold ids.
  rewrite (list_to_set_perm_L (C:=gset ExerciseRef)
             (map Exercise__c sets1) (map Exercise__c sets2))
    by (now apply Permutation_map).
  reflexivity.
Qed.

Lemma statistics_order_independent_witness :
  statistics_of [Sample.squat; Sample.bench]
  = statistics_of [Sample.bench; Sample.squat].
Proof.
  apply (statistics_order_independent [Sample.squat; Sample.bench]
           [Sample.bench; Sample.squat]).
  apply perm_swap.
Defined.

(** X23.  The statistics of two lists put together: the set counts and the rep
    sums add up, the maximum weight is the larger of the two maxima, and
    the number of distinct exercises lies between the larger of the two
    numbers and their sum. *)
Theorem statistics_of_append sets1 sets2 :
  let st := statistics_of (sets1 ++ sets2) in
  let st1 := statistics_of sets1 in
  let st2 := statistics_of sets2 in
  stat_total st = stat_total st1 + stat_total st2
  /\ stat_reps st = stat_reps st1 + stat_reps st2
  /\ stat_max st = Z.max (stat_max st1) (stat_max st2)
  /\ Z.max (stat_unique st1) (stat_unique st2) <= stat_unique st
  /\ stat_unique st <= stat_unique st1 + stat_unique st2.
Proof.
  intros st st1 st2; subst st st1 st2. rewrite !statistics_of_unfold.
  unfold stat_total, stat_reps, stat_max, stat_unique, ids; simpl.
  rewrite length_app, total_reps_app, !map_app, Math_max_app.
  split; [lia|]. split; [reflexivity|]. split; [reflexivity|].
  rewrite list_to_set_app_L.
  set (X := list_to_set (map Exercise__c sets1) : gset ExerciseRef).
  set (Y := list_to_set (map Exercise__c sets2) : gset ExerciseRef).
  assert (HX : (size X <= size (X ∪ Y))%nat)
    by apply subseteq_size, union_subseteq_l.
  assert (HY : (size Y <= size (X ∪ Y))%nat)
    by apply subseteq_size, union_subseteq_r.
  assert (HD : (size (Y ∖ X) <= size Y)%nat)
    by (apply subseteq_size; intros x Hx;
        now apply elem_of_difference in Hx as [Hx _]).
  rewrite size_union_alt in *. lia.
Qed.

End StatisticsAlgebra.

(** * How the handlers compose *)

(** X14.  After a session has been created, adding a set with a valid form is
    made for that session: the creation request, and the re-fetch that
    follows a successful creation, both carry the id of the created
    record. *)
Theorem add_after_create_uses_created_session (env1 env2 : Env)
  (session : Session) (s : State) :
  respond env1 [] createWorkoutSession = Resolved session ->
  form_valid env2 = true ->
  let s1 := fst (run (handleCreateSession env1) s) in
  let tr := snd (run (handleAddSet env2) s1) in
  map call_session (calls tr)
  = match respond env2 [] (createWorkoutSet (set_request s1)) with
    | Resolved _ => [Some (session_Id session); Some (session_Id session)]
    | Rejected _ => [Some (session_Id session)]
    end.
Proof.
  intros Hc Hv s1 tr; subst tr s1.
  rewrite handleCreateSession_run, Hc; simpl.
  rewrite handleAddSet_run, Hv; simpl.
  destruct (respond env2 [] (createWorkoutSet _)); simpl; [|reflexivity].
  destruct (respond env2 _ (getWorkoutSets _)); simpl_trace; reflexivity.
Qed.

Lemma add_after_create_uses_created_session_witness :
  map call_session
    (calls (snd (run (handleAddSet Sample.env_up)
                   (fst (run (handleCreateSession Sample.env_up)
                           initial_state)))))
  = [Some "a0S1"; Some "a0S1"].
Proof.
  apply (add_after_create_uses_created_session Sample.env_up Sample.env_up
           Sample.today initial_state); reflexivity.
Defined.

(** X15.  What the user typed is what is submitted: after the exercise, reps,
    weight, unit, RPE and notes handlers have stored their values, a valid
    [handleAddSet] sends exactly these values with the held session id.
    The weight goes out as typed, next to the unit; the component converts
    nothing. *)
Theorem typed_form_is_submitted (env env' : Env)
  (exercise r w : option string) (u : string) (p n : option string)
  (s : State) :
  form_valid env = true ->
  creations (snd (run (handleAddSet env)
                    (typed_form exercise r w u p n env' s)))
  = [createWorkoutSet
       {| req_sessionId := sessionId s; req_exerciseId := exercise;
          req_reps := r; req_weight := w; req_unit := u; req_rpe := p;
          req_notes := n |}].
Proof.
  intros Hv. rewrite creations_handleAddSet, Hv. reflexivity.
Qed.

Lemma typed_form_is_submitted_witness :
  creations (snd (run (handleAddSet Sample.env_up)
                    (typed_form (Some "ex1") (Some "5") (Some "135") "lbs"
                       None (Some "paused") Sample.env_up
                       Sample.in_session)))
  = [createWorkoutSet
       {| req_sessionId := Some "a0S1"; req_exerciseId := Some "ex1";
          req_reps := Some "5"; req_weight := Some "135";
          req_unit := "lbs"; req_rpe := None;
          req_notes := Some "paused" |}].
Proof.
  apply (typed_form_is_submitted Sample.env_up Sample.env_up (Some "ex1")
           (Some "5") (Some "135") "lbs" None (Some "paused")
           Sample.in_session).
  reflexivity.
Defined.

(** X16.  [statistics_follow_the_list] at work: the refresh button on a
    component that holds a session with two sets. *)
Lemma statistics_follow_the_list_witness :
  statistics Sample.in_session
  = statistics (calculateStatistics Sample.in_session)
  /\ statistics (fst (run (handler Sample.env_up RefreshTable)
                        Sample.in_session))
     = statistics (calculateStatistics
                     (fst (run (handler Sample.env_up RefreshTable)
                             Sample.in_session))).
Proof.
  assert (H : statistics Sample.in_session
              = statistics (calculateStatistics Sample.in_session))
    by (vm_compute; reflexivity).
  split; [exact H|].
  apply (statistics_follow_the_list Sample.env_up RefreshTable
           Sample.in_session); [reflexivity | exact H].
Defined.

(** * The silent loaders *)

(** X24.  [loadMuscleGroups] makes one call.  A resolved call turns every group
    name into an option whose label and value are both that name, in the
    order received, and changes no other field; a rejected call leaves the
    whole state as it was and is only logged to the console: no toast is
    shown. *)
Theorem loadMuscleGroups_outcome (env : Env) (s : State) :
  let r := run (loadMuscleGroups env) s in
  calls (snd r) = [getMuscleGroups]
  /\ toasts (snd r) = []
  /\ match respond env [] getMuscleGroups with
     | Resolved groups =>
         map opt_label (muscleGroupOptions (fst r)) = groups
         /\ map opt_value (muscleGroupOptions (fst r)) = groups
         /\ set_muscleGroupOptions (muscleGroupOptions s) (fst r) = s
         /\ console_errors (snd r) = []
     | Rejected _ =>
         fst r = s
         /\ console_errors (snd r) = ["Error loading muscle groups:"]
     end.
Proof.
  intros r; subst r. unfold run. rewrite loadMuscleGroups_run; simpl.
  destruct (respond env [] getMuscleGroups) as [groups|e]; simpl;
    repeat split.
  - rewrite map_map; simpl. apply map_id.
  - rewrite map_map; simpl. apply map_id.
  - destruct s; reflexivity.
Qed.

(** X25.  [handleMuscleGroupChange] never shows a toast and never touches the
    loading flag, so no spinner runs while the exercises are fetched; it
    changes the selected group, the selected exercise and the exercise
    options only.  A failed fetch is logged to the console. *)
Theorem handleMuscleGroupChange_is_quiet (env : Env) (value : option string)
  (s : State) :
  let r := run (handleMuscleGroupChange env value) s in
  toasts (snd r) = []
  /\ isLoading (fst r) = isLoading s
  /\ map isLoading (pending_states (snd r))
     = map (fun _ => isLoading s) (calls (snd r))
  /\ with_selection_of s (fst r) = s
  /\ console_errors (snd r)
     = match chosen_group value with
       | Some group =>
           match respond env [] (getExercisesByMuscleGroup group) with
           | Resolved _ => []
           | Rejected _ => ["Error loading exercises:"]
           end
       | None => []
       end.
Proof.
  intros r; subst r. rewrite handleMuscleGroupChange_run; simpl.
  destruct (chosen_group value) as [group|]; simpl.
  - destruct (respond env [] (getExercisesByMuscleGroup group)); simpl;
      repeat split; destruct s; reflexivity.
  - repeat split; destruct s; reflexivity.
Qed.

(** * Overlapping handlers *)

Section OverlapSteps.

Import Overlap.

Variable env : Env.

Lemma exec_assign f (k : Outcome () -> Prog ()) s tr :
  exec (Sync (assign f) k) s tr = exec (k (Normal ())) (f s) tr.
Proof. reflexivity. Qed.

Lemma exec_this (k : Outcome State -> Prog ()) s tr :
  exec (Sync this k) s tr = exec (k (Normal s)) s tr.
Proof. reflexivity. Qed.

Lemma exec_emit ev (k : Outcome () -> Prog ()) s tr :
  exec (Sync (emit ev) k) s tr = exec (k (Normal ())) s (tr ++ [ev]).
Proof. reflexivity. Qed.

Lemma exec_showToast t m v (k : Outcome () -> Prog ()) s tr :
  exec (Sync (showToast t m v) k) s tr
  = exec (k (Normal ())) s (tr ++ [Toast t m v]).
Proof. reflexivity. Qed.

Lemma exec_console_error l e (k : Outcome () -> Prog ()) s tr :
  exec (Sync (console_error l e) k) s tr
  = exec (k (Normal ())) s (tr ++ [ConsoleError l e]).
Proof. reflexivity. Qed.

Lemma exec_ask_confirm m (k : Outcome bool -> Prog ()) s tr :
  exec (Sync (ask_confirm env m) k) s tr
  = exec (k (Normal (confirm env m))) s (tr ++ [Confirm m (confirm env m)]).
Proof. reflexivity. Qed.

Lemma exec_validateForm (k : Outcome bool -> Prog ()) s tr :
  exec (Sync (validateForm env) k) s tr
  = exec (k (Normal (form_valid env))) s (tr ++ validate_events env).
Proof. simpl. now rewrite validateForm_run. Qed.

Lemma exec_handleClearForm (k : Outcome () -> Prog ()) s tr :
  exec (Sync (handleClearForm env) k) s tr
  = exec (k (Normal ())) (clear_form s) (tr ++ clear_events env).
Proof. simpl. now rewrite handleClearForm_run. Qed.

Lemma exec_handleSortData f d (k : Outcome () -> Prog ()) s tr :
  exec (Sync (handleSortData f d) k) s tr
  = exec (k (Normal ()))
      (sortData f d (set_sortedDirection d (set_sortedBy f s))) tr.
Proof. reflexivity. Qed.

Lemma exec_handleLoadMore (k : Outcome () -> Prog ()) s tr :
  exec (Sync handleLoadMore k) s tr = exec (k (Normal ())) s tr.
Proof. reflexivity. Qed.

Lemma exec_Ret a s tr : exec (Ret a) s tr = mkConfig s tr [].
Proof. reflexivity. Qed.

Lemma exec_Throw e s tr : exec (Throw e) s tr = mkConfig s tr [].
Proof. reflexivity. Qed.

Lemma exec_Await c k s tr :
  exec (Await c k) s tr
  = mkConfig s (tr ++ [Called s c]) [Waiting (calls tr) c k].
Proof. reflexivity. Qed.

Lemma exec_Tick k s tr : exec (Tick k) s tr = mkConfig s tr [Resuming k].
Proof. reflexivity. Qed.

Lemma exec_Fork p k s tr :
  exec (Fork p k) s tr
  = match exec p s tr with
    | mkConfig s1 tr1 ts1 =>
        match exec k s1 tr1 with
        | mkConfig s2 tr2 ts2 => mkConfig s2 tr2 (ts1 ++ ts2)
        end
    end.
Proof.
  simpl. destruct (exec p s tr) as [s1 tr1 ts1]; simpl.
  destruct (exec k s1 tr1); reflexivity.
Qed.

Lemma turn_eq p s tr ts others :
  turn p (mkConfig s tr ts) others
  = match exec p s tr with
    | mkConfig s' tr' ts' => mkConfig s' tr' (others ++ ts')
    end.
Proof. unfold turn; simpl. destruct (exec p s tr); reflexivity. Qed.

Lemma drain_cons n s tr t ts :
  drain env (S n) (mkConfig s tr (t :: ts))
  = drain env n
      (turn (resume_with (respond env) t) (mkConfig s tr (t :: ts)) ts).
Proof. simpl. unfold settle; simpl. now rewrite drop_0. Qed.

Lemma drain_nil n s tr : drain env n (mkConfig s tr []) = mkConfig s tr [].
Proof. destruct n; reflexivity. Qed.

End OverlapSteps.

(** Runs a handler of the second embedding up to its next suspension. *)
Ltac exec_norm :=
  cbn beta iota delta [Overlap.bind Overlap.try_catch Overlap.try_finally
                       Overlap.resume_with Overlap.fields Overlap.effects
                       Overlap.suspended app calls omap list_omap].

Ltac exec_steps :=
  exec_norm;
  repeat
    (first
       [ rewrite exec_assign | rewrite exec_this | rewrite exec_emit
       | rewrite exec_showToast | rewrite exec_console_error
       | rewrite exec_ask_confirm | rewrite exec_validateForm
       | rewrite exec_handleClearForm | rewrite exec_handleSortData
       | rewrite exec_handleLoadMore | rewrite exec_Ret
       | rewrite exec_Throw | rewrite exec_Await | rewrite exec_Tick
       | rewrite exec_Fork | rewrite turn_eq | rewrite drain_cons
       | rewrite drain_nil ];
     exec_norm).

Section OverlapInvariants.

Import Overlap.

(** An invariant that every handler keeps through all its turns holds in
    every configuration that occurs. *)
Lemma occurs_invariant (I : State -> Prop) :
  I initial_state ->
  (forall env a, exists n, keeps n I (react env a)) ->
  forall cfg, occurs cfg ->
    I (fields cfg)
    /\ Forall (fun t => exists n, task_ok (keeps n I) t) (suspended cfg).
Proof.
  intros H0 Hreact cfg Hocc.
  induction Hocc as [|env a cfg Hocc [IHs IHt]
                     |cfg before t after p Hocc [IHs IHt] Esus Hres].
  - split; [exact H0 | constructor].
  - destruct (Hreact env a) as [[|n] Hn]; [contradiction|].
    destruct (Hn (fields cfg) (effects cfg) IHs) as [H1 H2].
    unfold dispatch, turn; simpl. split; [exact H1|].
    apply Forall_app; split; [exact IHt|].
    eapply Forall_impl; [exact H2|]. intros t Ht; now exists n.
  - rewrite Esus in IHt.
    apply Forall_app in IHt as [Hbefore Hrest].
    apply Forall_cons in Hrest as [[n Ht] Hafter].
    assert (Hp : keeps n I p) by (destruct Hres; [apply Ht | exact Ht]).
    destruct n as [|n]; [contradiction|].
    destruct (Hp (fields cfg) (effects cfg) IHs) as [H1 H2].
    unfold turn; simpl. split; [exact H1|].
    apply Forall_app; split; [apply Forall_app; now split|].
    eapply Forall_impl; [exact H2|]. intros t' Ht'; now exists n.
Qed.

Lemma keeps_intro n (I : State -> Prop) p :
  (forall s tr, I s ->
     I (fields (exec p s tr))
     /\ Forall (task_ok (keeps n I)) (suspended (exec p s tr))) ->
  keeps (S n) I p.
Proof. intros H; exact H. Qed.

End OverlapInvariants.

(** Proves [keeps n I p] for a handler: runs every turn, splits on the
    answers, and leaves the invariant of each turn's last state to
    [fin]. *)
Ltac keeps_turn env fin :=
  lazymatch goal with
  | |- Overlap.keeps (S _) _ _ =>
      apply keeps_intro; intros ?s ?tr ?Hs;
      keeps_run env fin
  | |- Overlap.keeps O _ _ => fail "out of turns"
  end
with keeps_run env fin :=
  exec_steps;
  lazymatch goal with
  | |- context [Overlap.exec] =>
      first
        [ match goal with
          | |- context [form_valid env] => destruct (form_valid env)
          | |- context [confirm env ?m] => destruct (confirm env m)
          | |- context [match selectedMuscleGroup ?x with _ => _ end] =>
              let v := fresh "group" in
              destruct (selectedMuscleGroup x) as [v|]
          | |- context [if negb (String.eqb ?g "") then _ else _] =>
              destruct (negb (String.eqb g ""))
          end;
          cbn [negb truthy]; keeps_run env fin
        | fail 1 "stuck turn" ]
  | |- _ =>
      split;
      [ fin
      | repeat
          (first
             [ apply List.Forall_nil
             | apply List.Forall_cons;
               [ cbn [Overlap.task_ok];
                 first
                   [ intros [[?session|]|?error]
                   | intros [?answer|?error]
                   | idtac ];
                 keeps_turn env fin
               | ] ]) ]
  end.

(** Unfolds the handlers of the second embedding. *)
Ltac unfold_react :=
  unfold Overlap.react, Overlap.connectedCallback, Overlap.initializeLogger,
    Overlap.handleMuscleGroupChange, Overlap.handleCreateSession,
    Overlap.handleAddSet, Overlap.handleEndSession,
    Overlap.handleRefreshTable, Overlap.loadWorkoutSets,
    Overlap.loadMuscleGroups, Overlap.refreshApex, Overlap.await_method,
    Overlap.try_catch_finally, Overlap.sync, Overlap.await;
  cbn [handler].

Ltac session_fin :=
  unfold session_consistent in *; simpl;
  first [ assumption
        | split; [reflexivity | discriminate]
        | split; reflexivity ].

Ltac display_fin :=
  simpl;
  first [ assumption | reflexivity
        | rewrite Array_sort_Permutation; assumption ].

Section OverlapTheorems.

Import Overlap.

Lemma react_keeps_session env a :
  exists n, keeps n session_consistent (react env a).
Proof.
  exists 8%nat. destruct a; unfold_react; keeps_turn env session_fin.
Qed.

Lemma react_keeps_display env a :
  exists n, keeps n (fun s => loggedSets s ≡ₚ allLoggedSets s) (react env a).
Proof.
  exists 8%nat. destruct a; unfold_react; keeps_turn env display_fin.
Qed.

(** Settling a suspended handler leads from one occurring configuration
    to another. *)
Lemma occurs_settle i answer cfg : occurs cfg -> occurs (settle i answer cfg).
Proof.
  intros Hocc. unfold settle.
  destruct (suspended cfg !! i) as [t|] eqn:Ei; [|exact Hocc].
  apply (occurs_resume cfg (take i (suspended cfg)) t
           (drop (S i) (suspended cfg))); [exact Hocc | |].
  - symmetry. now apply take_drop_middle.
  - destruct t; constructor.
Qed.

Lemma mid_flight_occurs : occurs mid_flight.
Proof.
  unfold mid_flight.
  repeat first [apply occurs_dispatch | apply occurs_settle].
  apply occurs_start.
Qed.

(** X18.  Whatever handlers the user triggers, in whatever order their
    calls settle and with whatever answers, also while other handlers
    are suspended at an [await]: each time control is back with the
    page, the existence flag is set exactly when a session id is held,
    and without a session the date is empty. *)
Theorem overlap_session_consistent cfg :
  occurs cfg -> session_consistent (fields cfg).
Proof.
  intros Hocc.
  apply (occurs_invariant session_consistent); [split; reflexivity | | exact Hocc].
  exact react_keeps_session.
Qed.

Lemma overlap_session_consistent_witness :
  occurs mid_flight
  /\ pending_calls (suspended mid_flight) = [getWorkoutSets (Some "a0S1")]
  /\ sessionId (fields mid_flight) = Some "a0S1"
  /\ session_consistent (fields mid_flight).
Proof.
  split; [exact mid_flight_occurs|].
  split; [reflexivity|]. split; [reflexivity|].
  exact (overlap_session_consistent mid_flight mid_flight_occurs).
Defined.

(** X19.  Whatever handlers the user triggers, in whatever order their
    calls settle and with whatever answers, also while other handlers
    are suspended at an [await]: each time control is back with the
    page, the display list is a rearrangement of the cache.  Loading
    fills both with the same sets in one turn, sorting only reorders the
    display list, and ending the session empties both in one turn. *)
Theorem overlap_display_permutes_cache cfg :
  occurs cfg -> loggedSets (fields cfg) ≡ₚ allLoggedSets (fields cfg).
Proof.
  intros Hocc.
  apply (occurs_invariant (fun s => loggedSets s ≡ₚ allLoggedSets s));
    [reflexivity | | exact Hocc].
  exact react_keeps_display.
Qed.

Lemma overlap_display_permutes_cache_witness :
  occurs mid_flight
  /\ loggedSets (fields mid_flight) = [Sample.squat; Sample.bench]
  /\ allLoggedSets (fields mid_flight) = [Sample.bench; Sample.squat]
  /\ loggedSets (fields mid_flight) ≡ₚ allLoggedSets (fields mid_flight).
Proof.
  split; [exact mid_flight_occurs|].
  split; [reflexivity|]. split; [reflexivity|].
  exact (overlap_display_permutes_cache mid_flight mid_flight_occurs).
Defined.

End OverlapTheorems.

(** * What overlap does to the component *)

(** Picks one answer for the call the second embedding is stopped at, on
    both sides of an equation between the two embeddings. *)
Ltac same_answer env :=
  match goal with
  | |- context [respond env ?h ?c] =>
      let r := fresh "r" in
      set (r := respond env h c);
      repeat match goal with
             | |- context [respond env ?h' ?c'] =>
                 change (respond env h' c') with r
             end;
      destruct r as [?answer|?error]
  end.

(** Runs a handler of the second embedding to its end next to the run
    equation of the first. *)
Ltac agree env :=
  exec_steps;
  rewrite ?loadWorkoutSets_run, ?loadMuscleGroups_run;
  repeat match goal with
         | |- context [omap ?f (clear_events env ++ ?l)] =>
             change (omap f (clear_events env ++ l))
               with (calls (clear_events env ++ l));
             rewrite calls_app, calls_clear_events
         end;
  cbn beta iota zeta delta [fst snd app calls omap list_omap];
  try first
    [ match goal with
      | |- context [confirm env ?m] => destruct (confirm env m)
      | |- context [form_valid env] =>
          let V := fresh "V" in
          destruct (form_valid env) eqn:V;
          [rewrite (validate_events_valid env V)|]
      | |- context [match ?x with Some _ => _ | None => _ end] =>
          is_var x; destruct x
      end; cbn [negb]; agree env
    | same_answer env; agree env ].

Ltac agreed :=
  rewrite <- ?app_assoc; cbn [app];
  unfold store_sets, adopt_session, drop_session;
  norm_state;
  reflexivity.

Section OverlapBehaviour.

Import Overlap.

Lemma settle_first answer s tr t ts :
  settle 0 answer (mkConfig s tr (t :: ts))
  = turn (resume_with answer t) (mkConfig s tr (t :: ts)) ts.
Proof. unfold settle; simpl. now rewrite drop_0. Qed.


(** X17.  [handleRefreshTable] and [connectedCallback] start a load and
    do not await it: when they hand control back, [isLoading] is true
    and the fetch is still pending ([getWorkoutSets] for the session id
    held, resp. [getTodaySession]); the refresh has already shown its
    "Refreshing workout data..." toast.  The flag of the refresh goes
    off only in the turn in which its fetch settles: whatever the answer
    and whatever state the component is in by then, that turn ends with
    [isLoading] false and nothing left to run. *)
Theorem unawaited_loads_return_while_loading env s tr :
  let refreshed := exec (react env RefreshTable) s tr in
  let mounted := exec (react env Connected) s tr in
  isLoading (fields refreshed) = true
  /\ pending_calls (suspended refreshed) = [getWorkoutSets (sessionId s)]
  /\ toasts (effects refreshed) = toasts tr ++ [refresh_info]
  /\ isLoading (fields mounted) = true
  /\ pending_calls (suspended mounted) = [getTodaySession]
  /\ Forall (fun t => forall answer s' tr',
               isLoading (fields (exec (resume_with answer t) s' tr')) = false
               /\ suspended (exec (resume_with answer t) s' tr') = [])
       (suspended refreshed).
Proof.
  intros refreshed mounted; subst refreshed mounted.
  unfold_react. exec_steps.
  repeat split.
  - unfold toasts. rewrite !omap_app. simpl. now rewrite app_nil_r.
  - constructor; [|constructor]. intros answer s' tr'. exec_norm.
    destruct (answer _ _) as [sets|e]; exec_steps; split; reflexivity.
Qed.

(** X20.  The exercise options are assigned after the [await] without
    looking at the selection again.  If the user picks a muscle group
    and, while its exercises are being fetched, clears the selection
    (or picks the empty value), then the option list is empty until the
    fetch is answered, and the answer fills it with the exercises of the
    group that is no longer selected. *)
Theorem stale_exercises_overwrite env group value' exercises s tr :
  truthy (VStr group) = true ->
  chosen_group value' = None ->
  let asked :=
    dispatch env (MuscleGroupChange (Some group)) (mkConfig s tr []) in
  let cleared := dispatch env (MuscleGroupChange value') asked in
  let answered := settle 0 (answer_exercises exercises) cleared in
  pending_calls (suspended cleared) = [getExercisesByMuscleGroup group]
  /\ exerciseOptions (fields cleared) = []
  /\ selectedMuscleGroup (fields answered) = value'
  /\ chosen_group (selectedMuscleGroup (fields answered)) = None
  /\ exerciseOptions (fields answered) = exercise_options exercises
  /\ suspended answered = [].
Proof.
  intros Hgroup Hvalue asked cleared answered.
  subst asked cleared answered. unfold dispatch.
  unfold chosen_group in Hvalue |- *.
  unfold_react. exec_steps.
  cbn [selectedMuscleGroup set_selectedMuscleGroup set_selectedExerciseId
       set_exerciseOptions].
  rewrite Hgroup. exec_steps.
  cbn [selectedMuscleGroup set_selectedMuscleGroup set_selectedExerciseId
       set_exerciseOptions].
  destruct value' as [g|];
    [destruct (truthy (VStr g)) eqn:Eg; [discriminate|]|];
    exec_steps; rewrite settle_first; exec_steps;
    cbn [answer_exercises]; exec_steps;
    cbn [pending_calls omap list_omap selectedMuscleGroup exerciseOptions
         set_selectedMuscleGroup set_selectedExerciseId set_exerciseOptions];
    rewrite ?Eg; repeat split; reflexivity.
Qed.

Lemma stale_exercises_overwrite_witness :
  let answered :=
    settle 0 (answer_exercises [mkExercise "ex1" "Bench Press"])
      (dispatch Sample.env_up (MuscleGroupChange None)
         (dispatch Sample.env_up (MuscleGroupChange (Some "Chest"))
            (mkConfig Sample.in_session [] []))) in
  truthy (VStr "Chest") = true
  /\ chosen_group None = None
  /\ selectedMuscleGroup (fields answered) = None
  /\ exerciseOptions (fields answered) = [mkOption "Bench Press" "ex1"].
Proof.
  pose proof (stale_exercises_overwrite Sample.env_up "Chest" None
                [mkExercise "ex1" "Bench Press"] Sample.in_session []
                eq_refl eq_refl) as H.
  cbv zeta in H. destruct H as (_ & _ & H1 & _ & H2 & _).
  split; [reflexivity|]. split; [reflexivity|].
  split; [exact H1 | exact H2].
Defined.


(** X27.  Left alone, every handler finishes: triggered with nothing
    else in flight, and each of its calls answered by the backend before
    anything else happens, it is done after at most nine resumptions,
    with no continuation left, and the fields and the effects, in their
    order, are those of the handler read as one uninterrupted run. *)
Theorem drain_agrees_with_run env a s :
  drain env 9 (dispatch env a (mkConfig s [] []))
  = mkConfig (fst (run (handler env a) s)) (snd (run (handler env a) s)) [].
Proof.
  unfold dispatch.
  destruct a; cbn [handler]; try unfold connectedCallback;
  rewrite ?initializeLogger_run, ?handleMuscleGroupChange_run,
    ?handleCreateSession_run, ?handleAddSet_run, ?handleEndSession_run,
    ?handleRefreshTable_run, ?handleSortData_run;
  try (unfold run; rewrite handleClearForm_run);
  unfold_react; exec_steps.
  all: try reflexivity.
  - agree env; agreed.
  - unfold chosen_group.
    cbn [selectedMuscleGroup set_selectedMuscleGroup set_selectedExerciseId
         set_exerciseOptions].
    destruct value as [g|]; [destruct (truthy (VStr g))|]; agree env; agreed.
  - agree env; agreed.
  - agree env; agreed.
  - agree env; agreed.
  - agree env; agreed.
Qed.

End OverlapBehaviour.
